(** * ContactMapTask: residue-residue contact prediction task

    A shallow embedding of [tape/tasks/ContactMapTask.py].

    Tensors are nested lists, the outermost list being axis 0.  Integer
    tensors hold [Z], boolean tensors hold [bool].  Floating-point tensors
    (logits, weights, loss, accuracy) are idealised as exact rationals
    [Q]: rounding is not modelled.  Python exceptions and TensorFlow
    run-time errors are values of [exn], carried by the [result] monad. *)

From Stdlib Require Import String Ascii.
From Stdlib Require Import List ZArith QArith Bool Lia Lqa Permutation.
Import ListNotations.

(** ** Exceptions *)

Inductive exn : Type :=
| FileNotFoundError (filename : string)
| KeyError (key : string)
| IndexError
| InvalidArgumentError.

Inductive result (A : Type) : Type :=
| Ok (a : A)
| Raise (e : exn).

Arguments Ok {A} a.
Arguments Raise {A} e.

Definition bind {A B : Type} (r : result A) (k : A -> result B) : result B :=
  match r with
  | Ok a => k a
  | Raise e => Raise e
  end.

Declare Scope result_scope.
Delimit Scope result_scope with result.
Notation "x <- r ;; k" := (bind r (fun x => k))
  (at level 61, r at next level, right associativity) : result_scope.
Notation "' p <- r ;; k" := (bind r (fun x => let p := x in k))
  (at level 61, p pattern, r at next level, right associativity) : result_scope.

(** [mapM f l] runs [f] on every element, left to right, and stops at the
    first exception. *)
Fixpoint mapM {A B : Type} (f : A -> result B) (l : list A) : result (list B) :=
  match l with
  | [] => Ok []
  | a :: l' =>
      match f a with
      | Ok b => match mapM f l' with
                | Ok bs => Ok (b :: bs)
                | Raise e => Raise e
                end
      | Raise e => Raise e
      end
  end.

(** ** Elementwise operations and indexing *)

(** Elementwise binary operation on two tensors of the same length. *)
Fixpoint map2 {A B C : Type} (f : A -> B -> C) (l1 : list A) (l2 : list B) : list C :=
  match l1, l2 with
  | a :: l1', b :: l2' => f a b :: map2 f l1' l2'
  | _, _ => []
  end.

(** [t[b, i, j]] for a rank-3 tensor; [None] when an index is out of range. *)
Definition at3 {A : Type} (t : list (list (list A))) (b i j : nat) : option A :=
  match nth_error t b with
  | Some m => match nth_error m i with
              | Some r => nth_error r j
              | None => None
              end
  | None => None
  end.

(** [t[b, i]] for a rank-2 tensor. *)
Definition at2 {A : Type} (t : list (list A)) (b i : nat) : option A :=
  match nth_error t b with
  | Some r => nth_error r i
  | None => None
  end.

(** ** The parts of [os.path] and [glob] the task uses *)

Module OsPath.

Definition sep : ascii := "/"%char.

Definition startswith_sep (s : string) : bool :=
  match s with
  | String c _ => Ascii.eqb c sep
  | EmptyString => false
  end.

Fixpoint endswith_sep (s : string) : bool :=
  match s with
  | EmptyString => false
  | String c EmptyString => Ascii.eqb c sep
  | String _ s' => endswith_sep s'
  end.

(** One step of [posixpath.join]: an absolute component replaces the
    path; otherwise it is appended, after a separator unless the path is
    empty or already ends with one. *)
Definition join_step (path b : string) : string :=
  if startswith_sep b then b
  else if (String.eqb path EmptyString || endswith_sep path)%bool
       then (path ++ b)%string
       else (path ++ String sep b)%string.

Definition join (a : string) (p : list string) : string :=
  fold_left join_step p a.

End OsPath.

(** The file system as the task observes it: [glob.glob] and
    [os.path.exists]. *)
Record FileSystem : Type := {
  glob : string -> list string;
  path_exists : string -> bool
}.

(** ** The NumPy operations of [get_data] *)

Module Np.

(** [np.asarray(np.sqrt(n) / 4, np.int32)] on one non-negative integer:
    the cast truncates, and [floor (sqrt n / 4) = floor (floor (sqrt n) / 4)].
    The square root is exact here; the float64 square root of the code
    agrees with it on the int32 range (it rounds across an integer only
    from about [2^52] on). *)
Definition sqrt_div4_int32 (n : Z) : Z := (Z.sqrt n / 4)%Z.

(** [a[a <= 0] = 1] *)
Definition clamp_nonpositive (a : list Z) : list Z :=
  map (fun x => if (x <=? 0)%Z then 1%Z else x) a.

(** [a[m] = v] for a boolean index [m]: the index must have the length
    of [a], otherwise NumPy raises [IndexError]. *)
Definition setitem_bool (a : list Z) (m : list bool) (v : Z) : result (list Z) :=
  if Nat.eqb (length m) (length a)
  then Ok (map2 (fun x (c : bool) => if c then v else x) a m)
  else Raise IndexError.

(** [a[:-1][m] = v]: the slice is a view of all but the last element, so
    the assignment writes through to [a] and leaves its last element. *)
Definition setitem_bool_init (a : list Z) (m : list bool) (v : Z) : result (list Z) :=
  match setitem_bool (removelast a) m v with
  | Ok a' => Ok (a' ++ skipn (length a - 1) a)
  | Raise e => Raise e
  end.

(** [a[-1] = v] *)
Definition setitem_last (a : list Z) (v : Z) : result (list Z) :=
  match a with
  | [] => Raise IndexError
  | _ :: _ => Ok (removelast a ++ [v])
  end.

End Np.

(** ** The TensorFlow operations of [get_mask] and [loss_function] *)

Module Tf.

(** [tf.range(n)] *)
Definition range (n : nat) : list Z := map Z.of_nat (seq 0 n).

(** [tf.greater_equal] on a matrix and a scalar *)
Definition greater_equal (t : list (list Z)) (c : Z) : list (list bool) :=
  map (map (fun d => (c <=? d)%Z)) t.

(** [x[:, :, None] & x[:, None, :]]: entry [b, i, j] is [x[b, i] && x[b, j]]. *)
Definition outer_and (x : list (list bool)) : list (list (list bool)) :=
  map (fun row => map (fun vi => map (fun vj => vi && vj) row) row) x.

(** [tf.abs(indices[None, :] - indices[:, None])]: entry [i, j] is
    [|indices[j] - indices[i]|]. *)
Definition abs_outer_diff (indices : list Z) : list (list Z) :=
  map (fun xi => map (fun xj => Z.abs (xj - xi)) indices) indices.

(** [x & m[None]] for [x] of shape [B, L, L] and [m] of shape [L, L]. *)
Definition and_broadcast0 (x : list (list (list bool))) (m : list (list bool))
  : list (list (list bool)) :=
  map (fun xb => map2 (map2 andb) xb m) x.

(** [tf.squeeze(t, 3)]: axis 3 must have size 1. *)
Definition squeeze3 {A : Type} (t : list (list (list (list A))))
  : result (list (list (list A))) :=
  mapM (mapM (mapM (fun c => match c with
                             | [x] => Ok x
                             | _ => Raise InvalidArgumentError
                             end))) t.

(** Row-major contents of a rank-3 tensor. *)
Definition flatten3 {A : Type} (t : list (list (list A))) : list A :=
  concat (concat t).

Fixpoint chunks {A : Type} (rows cols : nat) (flat : list A) : list (list A) :=
  match rows with
  | O => []
  | S rows' => firstn cols flat :: chunks rows' cols (skipn cols flat)
  end.

(** [tf.reshape(t, (rows, cols))] of a rank-3 tensor: the number of
    elements must be [rows * cols]. *)
Definition reshape {A : Type} (t : list (list (list A))) (rows cols : nat)
  : result (list (list A)) :=
  let flat := flatten3 t in
  if Nat.eqb (length flat) (rows * cols)
  then Ok (chunks rows cols flat)
  else Raise InvalidArgumentError.

(** [tf.cast] of a boolean tensor to the float type: 1.0 / 0.0. *)
Definition cast_bool (t : list (list bool)) : list (list Q) :=
  map (map (fun b : bool => if b then 1%Q else 0%Q)) t.

(** [tf.cast] of an integer tensor to the float type. *)
Definition cast_int (t : list (list Z)) : list (list Q) :=
  map (map inject_Z) t.

Definition int32_min : Z := (- 2 ^ 31)%Z.

(** [tf.reduce_max] of an int32 vector (the lowest int32 when empty). *)
Definition reduce_max (l : list Z) : Z := fold_right Z.max int32_min l.

(** [tf.reduce_sum] of a matrix: the sum of all entries. *)
Definition sum (l : list Q) : Q := fold_right Qplus 0%Q l.
Definition reduce_sum (t : list (list Q)) : Q := sum (map sum t).

(** *** [tf.nn.top_k] *)

(** The largest candidate of a list of (index, value) pairs, the
    earliest one among equals, and the list without it. *)
Fixpoint extract_max (l : list (nat * Q)) : option ((nat * Q) * list (nat * Q)) :=
  match l with
  | [] => None
  | c :: cs =>
      match extract_max cs with
      | None => Some (c, [])
      | Some (m, rest) =>
          if Qle_bool (snd m) (snd c) then Some (c, cs) else Some (m, c :: rest)
      end
  end.

Fixpoint select (k : nat) (l : list (nat * Q)) : list (nat * Q) :=
  match k with
  | O => []
  | S k' =>
      match extract_max l with
      | None => []
      | Some (m, rest) => m :: select k' rest
      end
  end.

(** One row of [top_k]: the [k] largest entries in decreasing order,
    the lower index first among equal entries. *)
Definition top_k_row (k : nat) (row : list Q) : list (nat * Q) :=
  select k (combine (seq 0 (length row)) row).

(** [tf.nn.top_k(t, k)] on a matrix: [(values, indices)]; [k] must be
    non-negative and at most the number of columns. *)
Definition top_k (t : list (list Q)) (k : Z)
  : result (list (list Q) * list (list nat)) :=
  if (k <? 0)%Z then Raise InvalidArgumentError
  else if forallb (fun row => Nat.leb (Z.to_nat k) (length row)) t
  then let sel := map (top_k_row (Z.to_nat k)) t in
       Ok (map (map snd) sel, map (map fst) sel)
  else Raise InvalidArgumentError.

(** First output of [tf.meshgrid(xs, ys, indexing='ij')]: entry [a, b]
    is [xs[a]]. *)
Definition meshgrid_ij_fst {A B : Type} (xs : list A) (ys : list B) : list (list A) :=
  map (fun x => map (fun _ => x) ys) xs.

(** [tf.stack([a, b], -1)] on two matrices. *)
Definition stack2 {A B : Type} (a : list (list A)) (b : list (list B))
  : list (list (A * B)) :=
  map2 (map2 pair) a b.

(** [tf.gather_nd(params, indices)] for a matrix [params] and index
    pairs: out-of-range indices are an error. *)
Definition gather_nd {A : Type} (params : list (list A)) (indices : list (list (nat * nat)))
  : result (list (list A)) :=
  mapM (mapM (fun ix : nat * nat =>
                match at2 params (fst ix) (snd ix) with
                | Some v => Ok v
                | None => Raise InvalidArgumentError
                end)) indices.

(** *** [tf.losses.sigmoid_cross_entropy] *)

Definition same_shape {A B : Type} (a : list (list A)) (b : list (list B)) : bool :=
  (Nat.eqb (length a) (length b)
   && forallb (fun p => Nat.eqb (length (fst p)) (length (snd p))) (combine a b))%bool.

(** [_num_present]: the number of entries with a non-zero weight. *)
Definition num_present (weights : list (list Q)) : Q :=
  reduce_sum (map (map (fun w => if Qeq_bool w 0 then 0%Q else 1%Q)) weights).

(** [div_no_nan]: 0 when the denominator is 0. *)
Definition div_no_nan (x y : Q) : Q :=
  if Qeq_bool y 0 then 0%Q else (x / y)%Q.

Section Losses.

(** [tf.nn.sigmoid_cross_entropy_with_logits] on one entry, given the
    label and the logit: [max(x, 0) - x * z + log(1 + exp(-|x|))].  It
    is transcendental, so it stays a parameter of the model. *)
Variable xent : Q -> Q -> Q.

(** [tf.losses.sigmoid_cross_entropy(labels, logits, weights)] with the
    default reduction [SUM_BY_NONZERO_WEIGHTS] and no label smoothing. *)
Definition sigmoid_cross_entropy
    (multi_class_labels : list (list Z)) (logits weights : list (list Q)) : result Q :=
  if (same_shape multi_class_labels logits && same_shape logits weights)%bool
  then
    let losses := map2 (map2 xent) (cast_int multi_class_labels) logits in
    let weighted_losses := map2 (map2 Qmult) losses weights in
    Ok (div_no_nan (reduce_sum weighted_losses) (num_present weights))
  else Raise InvalidArgumentError.

End Losses.

End Tf.

(** ** The task *)

(** A batch as the deserializer yields it: [primary] and [valid_mask] have
    shape [B, L], [protein_length] shape [B], [contact_map] shape [B, L, L]. *)
Record Inputs : Type := {
  primary : list (list Z);
  protein_length : list Z;
  valid_mask : list (list bool);
  contact_map : list (list (list Z))
}.

(** The model outputs: [contact_prob] has shape [B, L, L, 1]. *)
Record Outputs : Type := {
  contact_prob : list (list (list (list Q)))
}.

(** [inputs[key]] where a label tensor is expected: the batch holds one,
    under ['contact_map']. *)
Definition getitem_label (inputs : Inputs) (key : string)
  : result (list (list (list Z))) :=
  if String.eqb key "contact_map" then Ok (contact_map inputs) else Raise (KeyError key).

(** [outputs[key]]: the model outputs hold ['contact_prob']. *)
Definition getitem_output (outputs : Outputs) (key : string)
  : result (list (list (list (list Q)))) :=
  if String.eqb key "contact_prob" then Ok (contact_prob outputs) else Raise (KeyError key).

Record ContactMapTask : Type := {
  key_metric : string;
  _label_name : string;
  _input_name : string;
  _output_name : string;
  _min_residue_distance : Z
}.

(** [ContactMapTask.__init__]; [None] stands for an omitted argument.
    Modelled from the spec: [Task.__init__] (the base class is not among
    the sources) keeps [key_metric]. *)
Definition __init__ (min_residue_distance : option Z) : ContactMapTask :=
  {| key_metric := "ACC";
     _label_name := "contact_map";
     _input_name := "encoder_output";
     _output_name := "contact_prob";
     _min_residue_distance :=
       match min_residue_distance with
       | Some d => d
       | None => 6%Z
       end |}.

Definition get_train_files (fs : FileSystem) (data_folder : string) : result (list string) :=
  let train_file_pattern :=
    OsPath.join data_folder ["proteinnet"; "contact_map_train*.tfrecord"]%string in
  let train_files := glob fs train_file_pattern in
  if Nat.eqb (length train_files) 0
  then Raise (FileNotFoundError train_file_pattern)
  else Ok train_files.

Definition get_valid_files (fs : FileSystem) (data_folder : string) : result (list string) :=
  let valid_file :=
    OsPath.join data_folder ["proteinnet"; "contact_map_valid.tfrecord"]%string in
  if negb (path_exists fs valid_file)
  then Raise (FileNotFoundError valid_file)
  else Ok [valid_file].

(** [rk.utils.get_shape(t, 1)] *)
Definition get_shape1 {A : Type} (t : list (list A)) : nat :=
  length (hd [] t).

(** [get_shape(t, (0, 1))] *)
Definition get_shape01 {A : Type} (t : list (list A)) : nat * nat :=
  (length t, length (hd [] t)).

Definition get_mask (self : ContactMapTask) (inputs : Inputs) : list (list (list bool)) :=
  let valid_mask := Tf.outer_and (valid_mask inputs) in
  let sequence_length := get_shape1 (primary inputs) in
  let indices := Tf.range sequence_length in
  let distance := Tf.abs_outer_diff indices in
  let nearby_contact_mask := Tf.greater_equal distance (_min_residue_distance self) in
  let mask := Tf.and_broadcast0 valid_mask nearby_contact_mask in
  mask.

(** The local variables of [loss_function] at its [return]. *)
Record Locals : Type := {
  l_mask : list (list Q);
  l_label : list (list Z);
  l_pred : list (list Q);
  l_loss : Q;
  l_max_prot_len : Z;
  l_indices : list (list nat);
  l_l5_labels : list (list Q);
  l_l5_mask : list (list Q);
  l_accuracy : Q
}.

Definition epsilon : Q := 1 # 100000000.

Section LossFunction.

Variable xent : Q -> Q -> Q.

Local Open Scope result_scope.

Definition loss_function_locals (self : ContactMapTask) (inputs : Inputs) (outputs : Outputs)
  : result Locals :=
  let mask := get_mask self inputs in
  label <- getitem_label inputs (_label_name self) ;;
  contact_prob <- getitem_output outputs (_output_name self) ;;
  pred <- Tf.squeeze3 contact_prob ;;
  let '(batch_size, seqlen) := get_shape01 label in
  mask <- Tf.reshape mask batch_size (seqlen * seqlen) ;;
  label <- Tf.reshape label batch_size (seqlen * seqlen) ;;
  pred <- Tf.reshape pred batch_size (seqlen * seqlen) ;;
  let mask := Tf.cast_bool mask in
  loss <- Tf.sigmoid_cross_entropy xent label pred mask ;;
  let max_prot_len := Tf.reduce_max (protein_length inputs) in
  ' (top_l_over_5, indices) <-
      Tf.top_k (map2 (map2 (fun p m => p - 1000 * (1 - m))%Q) pred mask)
               (max_prot_len / 5)%Z ;;
  let ii := Tf.meshgrid_ij_fst (seq 0 batch_size)
                               (Tf.range (Z.to_nat (max_prot_len / 5))) in
  l5_labels <- Tf.gather_nd label (Tf.stack2 ii indices) ;;
  l5_mask <- Tf.gather_nd mask (Tf.stack2 ii indices) ;;
  let l5_labels := Tf.cast_int l5_labels in
  let accuracy :=
    (Tf.reduce_sum (map2 (map2 Qmult) l5_labels l5_mask)
     / (Tf.reduce_sum l5_mask + epsilon))%Q in
  Ok {| l_mask := mask; l_label := label; l_pred := pred; l_loss := loss;
        l_max_prot_len := max_prot_len; l_indices := indices;
        l_l5_labels := l5_labels; l_l5_mask := l5_mask;
        l_accuracy := accuracy |}.

(** [loss_function] returns the loss and the metrics dictionary. *)
Definition loss_function (self : ContactMapTask) (inputs : Inputs) (outputs : Outputs)
  : result (Q * list (string * Q)) :=
  r <- loss_function_locals self inputs outputs ;;
  let metrics := [(key_metric self, l_accuracy r)] in
  Ok (l_loss r, metrics).

End LossFunction.

(** The values [np.asarray(_, np.int32)] stores unchanged. *)
Definition in_int32 (z : Z) : Prop := (- 2 ^ 31 <= z < 2 ^ 31)%Z.

(** The arrays [get_data] hands to [Task.get_data].  Integers are
    unbounded here: the model is that of the code for boundaries that
    satisfy [in_int32] and nominal sizes from 0 to [2^31 - 1]; beyond,
    [np.asarray(bounds, np.int32)] overflows and the float64 square root
    rounds. *)
Definition get_data_arrays (boundaries : list Z * list Z) : result (list Z * list Z) :=
  let '(bounds, batch_sizes) := boundaries in
  let bounds_array := bounds in
  let batch_sizes_array := map Np.sqrt_div4_int32 batch_sizes in
  let batch_sizes_array := Np.clamp_nonpositive batch_sizes_array in
  (batch_sizes_array <-
     Np.setitem_bool_init batch_sizes_array
       (map (fun b => (1000 <? b)%Z) bounds_array) 0%Z ;;
   batch_sizes_array <- Np.setitem_last batch_sizes_array 0%Z ;;
   Ok (bounds_array, batch_sizes_array))%result.


(** ** Well-formed batches *)

Definition has_shape1 {A : Type} (n : nat) (l : list A) : bool :=
  Nat.eqb (length l) n.

Definition has_shape2 {A : Type} (n m : nat) (t : list (list A)) : bool :=
  (Nat.eqb (length t) n && forallb (has_shape1 m) t)%bool.

Definition has_shape3 {A : Type} (n m p : nat) (t : list (list (list A))) : bool :=
  (Nat.eqb (length t) n && forallb (has_shape2 m p) t)%bool.

Definition has_shape4 {A : Type} (n m p q : nat) (t : list (list (list (list A)))) : bool :=
  (Nat.eqb (length t) n && forallb (has_shape3 m p q) t)%bool.

(** Number of examples [B] and padded length [L] of a batch. *)
Definition batch_size_of (inputs : Inputs) : nat := length (protein_length inputs).
Definition seqlen_of (inputs : Inputs) : nat := get_shape1 (primary inputs).

(** A batch of [B >= 1] proteins padded to length [L], with the shapes of
    the data model and true lengths between 0 and [L]. *)
Definition wf_batch (inputs : Inputs) (outputs : Outputs) : bool :=
  let B := batch_size_of inputs in
  let L := seqlen_of inputs in
  (Nat.leb 1 B
   && has_shape2 B L (primary inputs)
   && has_shape2 B L (valid_mask inputs)
   && has_shape3 B L L (contact_map inputs)
   && has_shape4 B L L 1 (contact_prob outputs)
   && forallb (fun n => (0 <=? n)%Z && (n <=? Z.of_nat L)%Z) (protein_length inputs))%bool.

(** ** Example batches *)

(** One protein of length 4, no padding, no contacts. *)
Definition batch4 : Inputs :=
  {| primary := [[1; 2; 3; 4]%Z];
     protein_length := [4%Z];
     valid_mask := [[true; true; true; true]];
     contact_map := [repeat (repeat 0%Z 4) 4] |}.

(** One protein of length 3 padded to 4. *)
Definition batch4_padded : Inputs :=
  {| primary := [[1; 2; 3; 0]%Z];
     protein_length := [3%Z];
     valid_mask := [[true; true; true; false]];
     contact_map := [repeat (repeat 0%Z 4) 4] |}.

(** ** Example file systems *)

(** A data folder without any file. *)
Definition fs_empty : FileSystem :=
  {| glob := fun _ => [];
     path_exists := fun _ => false |}.

(** A data folder [data] holding two training shards and the validation
    file. *)
Definition fs_data : FileSystem :=
  {| glob := fun pattern =>
       if String.eqb pattern "data/proteinnet/contact_map_train*.tfrecord"
       then ["data/proteinnet/contact_map_train_0.tfrecord";
             "data/proteinnet/contact_map_train_1.tfrecord"]%string
       else [];
     path_exists := fun path =>
       String.eqb path "data/proteinnet/contact_map_valid.tfrecord" |}.

(** ** The tensors of [loss_function] on a well-formed batch *)

(** [tf.squeeze(outputs['contact_prob'], 3)] when axis 3 has size 1. *)
Definition squeezed (outputs : Outputs) : list (list (list Q)) :=
  map (map (map (hd 0%Q))) (contact_prob outputs).

(** The mask, labels and logits with the pair axes flattened: row [b]
    lists the pairs [(i, j)] of example [b] in row-major order. *)
Definition flat_mask (self : ContactMapTask) (inputs : Inputs) : list (list bool) :=
  map (@concat bool) (get_mask self inputs).

Definition flat_label (inputs : Inputs) : list (list Z) :=
  map (@concat Z) (contact_map inputs).

Definition flat_pred (outputs : Outputs) : list (list Q) :=
  map (@concat Q) (squeezed outputs).

(** The number of unmasked pairs of one example. *)
Definition count_unmasked (mrow : list bool) : nat :=
  length (filter (fun m : bool => m) mrow).

(** [k], the number of pairs ranked per example: the largest true length
    of the batch, integer-divided by 5. *)
Definition top_l_over_5_k (inputs : Inputs) : nat :=
  Z.to_nat (Tf.reduce_max (protein_length inputs) / 5).

(** The ranking scores: [pred - 1000 * (1 - mask)] on the flattened pairs. *)
Definition ranking_scores (self : ContactMapTask) (inputs : Inputs) (outputs : Outputs)
  : list (list Q) :=
  map2 (map2 (fun p m => p - 1000 * (1 - m))%Q)
       (flat_pred outputs) (Tf.cast_bool (flat_mask self inputs)).

(** The contact-map labels are binary. *)
Definition binary_labels (inputs : Inputs) : bool :=
  forallb (forallb (forallb (fun z => (z =? 0)%Z || (z =? 1)%Z))) (contact_map inputs).

(** The masked sigmoid cross-entropy as a weighted mean: the per-pair
    cross-entropies [ce], each multiplied by its weight, summed, and
    divided by the total weight. *)
Definition weighted_mean (ce weights : list (list Q)) : Q :=
  (Tf.reduce_sum (map2 (map2 Qmult) ce weights) / Tf.reduce_sum weights)%Q.

(** ** More example batches *)

(** A rational stand-in for the transcendental per-entry cross-entropy,
    for running the model on concrete batches. *)
Definition xent_sq (z x : Q) : Q := ((x - z) * (x - z))%Q.

(** One protein of length 5; every off-diagonal pair is a contact. *)
Definition batch5 : Inputs :=
  {| primary := [[1; 2; 3; 4; 5]%Z];
     protein_length := [5%Z];
     valid_mask := [repeat true 5];
     contact_map :=
       [map (fun i => map (fun j => if Nat.eqb i j then 0%Z else 1%Z) (seq 0 5)) (seq 0 5)] |}.

(** Logits for [batch5]: 0 on the diagonal, -2000 elsewhere. *)
Definition outputs5 : Outputs :=
  {| contact_prob :=
       [map (fun i => map (fun j => [if Nat.eqb i j then 0%Q else (-2000)%Q]) (seq 0 5))
            (seq 0 5)] |}.

(** Two proteins of lengths 10 and 20, padded to 20; contacts between
    residues 7 apart. *)
Definition batch20 : Inputs :=
  {| primary := [repeat 1%Z 10 ++ repeat 0%Z 10; repeat 1%Z 20];
     protein_length := [10; 20]%Z;
     valid_mask := [repeat true 10 ++ repeat false 10; repeat true 20];
     contact_map :=
       repeat (map (fun i => map (fun j => if Nat.eqb (i + 7) j then 1%Z
                                           else if Nat.eqb (j + 7) i then 1%Z else 0%Z)
                                 (seq 0 20)) (seq 0 20)) 2 |}.

(** Logits for [batch20]: pair [(i, j)] scores [i + j]. *)
Definition outputs20 : Outputs :=
  {| contact_prob :=
       repeat (map (fun i => map (fun j => [inject_Z (Z.of_nat (i + j))]) (seq 0 20))
                   (seq 0 20)) 2 |}.

(** One protein of length 4 with every position marked as padding. *)
Definition batch4_all_padding : Inputs :=
  {| primary := [[0; 0; 0; 0]%Z];
     protein_length := [0%Z];
     valid_mask := [[false; false; false; false]];
     contact_map := [repeat (repeat 1%Z 4) 4] |}.

(** Logits for the batches of padded length 4: pair [(i, j)] scores [i - j]. *)
Definition outputs4 : Outputs :=
  {| contact_prob :=
       [map (fun i => map (fun j => [inject_Z (Z.of_nat i - Z.of_nat j)]) (seq 0 4))
            (seq 0 4)] |}.


(** [batch4] with every pair labelled a contact. *)
Definition batch4_contacts : Inputs :=
  {| primary := [[1; 2; 3; 4]%Z];
     protein_length := [4%Z];
     valid_mask := [[true; true; true; true]];
     contact_map := [repeat (repeat 1%Z 4) 4] |}.

(** [batch4] with the label -1 (missing) on the pairs less than 2 apart
    and a contact on the others. *)
Definition batch4_missing : Inputs :=
  {| primary := [[1; 2; 3; 4]%Z];
     protein_length := [4%Z];
     valid_mask := [[true; true; true; true]];
     contact_map :=
       [map (fun i => map (fun j => if (2 <=? Z.abs (Z.of_nat j - Z.of_nat i))%Z
                                    then 1%Z else (-1)%Z) (seq 0 4)) (seq 0 4)] |}.

(** Logits for the batches of padded length 4 that differ from
    [outputs4] on the diagonal only. *)
Definition outputs4_diagonal : Outputs :=
  {| contact_prob :=
       [map (fun i => map (fun j => [if Nat.eqb i j then 7
                                     else inject_Z (Z.of_nat i - Z.of_nat j)]) (seq 0 4))
            (seq 0 4)] |}.

(** Model outputs for a batch of padded length 4 with two channels per
    pair instead of one. *)
Definition outputs4_two_channels : Outputs :=
  {| contact_prob := [repeat (repeat [0; 1] 4) 4] |}.

(** ** The ranking of one example *)




(** ** Batches of one protein of length 7 *)




(** * Supporting lemmas *)

(** ** The model on small inputs *)

Example get_mask_distance2 :
  get_mask (__init__ (Some 2%Z)) batch4
  = [[[false; false; true; true];
      [false; false; false; true];
      [true; false; false; false];
      [true; true; false; false]]].
Proof. reflexivity. Qed.

Example get_mask_padded :
  get_mask (__init__ (Some 1%Z)) batch4_padded
  = [[[false; true; true; false];
      [true; false; true; false];
      [true; true; false; false];
      [false; false; false; false]]].
Proof. reflexivity. Qed.

Example top_k_ties :
  Tf.top_k [[1; 3; 2; 3]; [0; 0; 5; -1]] 2
  = Ok ([[3; 3]; [5; 0]], [[1; 3]; [2; 0]]%nat).
Proof. reflexivity. Qed.

Example top_k_too_many :
  Tf.top_k [[1; 3; 2]] 4 = Raise InvalidArgumentError.
Proof. reflexivity. Qed.

Example reshape_rows :
  Tf.reshape [[[1; 2]; [3; 4]]; [[5; 6]; [7; 8]]]%Z 2 4
  = Ok [[1; 2; 3; 4]; [5; 6; 7; 8]]%Z.
Proof. reflexivity. Qed.

Example get_data_arrays_clamp :
  get_data_arrays ([100; 200]%Z, [9; 16; 1024]%Z) = Ok ([100; 200]%Z, [1; 1; 0]%Z).
Proof. reflexivity. Qed.

Example join_trailing_separator :
  OsPath.join "data/" ["proteinnet"; "contact_map_valid.tfrecord"]%string
  = "data/proteinnet/contact_map_valid.tfrecord"%string.
Proof. reflexivity. Qed.

(** ** Indexing lemmas *)

Lemma nth_error_map2 {A B C : Type} (f : A -> B -> C) (l1 : list A) (l2 : list B) (n : nat) :
  nth_error (map2 f l1 l2) n =
  match nth_error l1 n, nth_error l2 n with
  | Some a, Some b => Some (f a b)
  | _, _ => None
  end.
Proof.
  revert l2 n.
  induction l1 as [|a l1 IH]; intros [|b l2] [|n]; simpl; try reflexivity.
  - destruct (nth_error l1 n); reflexivity.
  - apply IH.
Qed.

Lemma nth_error_range (n i : nat) :
  nth_error (Tf.range n) i = if Nat.ltb i n then Some (Z.of_nat i) else None.
Proof.
  unfold Tf.range.
  rewrite nth_error_map.
  destruct (Nat.ltb_spec i n) as [Hlt | Hge].
  - rewrite nth_error_nth' with (d := O) by (rewrite length_seq; exact Hlt).
    rewrite seq_nth by exact Hlt.
    reflexivity.
  - assert (Hnone : nth_error (seq 0 n) i = None)
      by (apply nth_error_None; rewrite length_seq; exact Hge).
    rewrite Hnone.
    reflexivity.
Qed.

(** Entry [(b, i, j)] of the mask, read off the inputs. *)
Lemma get_mask_at (self : ContactMapTask) (inputs : Inputs) (b i j : nat) :
  at3 (get_mask self inputs) b i j =
  match nth_error (valid_mask inputs) b with
  | Some row =>
      match nth_error row i, nth_error row j with
      | Some vi, Some vj =>
          if (Nat.ltb i (get_shape1 (primary inputs))
              && Nat.ltb j (get_shape1 (primary inputs)))%bool
          then Some (vi && vj
                     && (_min_residue_distance self <=? Z.abs (Z.of_nat j - Z.of_nat i))%Z)%bool
          else None
      | _, _ => None
      end
  | None => None
  end.
Proof.
  unfold at3, get_mask, Tf.and_broadcast0, Tf.outer_and, Tf.greater_equal, Tf.abs_outer_diff.
  rewrite !nth_error_map.
  destruct (nth_error (valid_mask inputs) b) as [row|]; simpl; [|reflexivity].
  rewrite nth_error_map2, !nth_error_map, nth_error_range.
  destruct (nth_error row i) as [vi|]; simpl.
  - destruct (Nat.ltb i (get_shape1 (primary inputs))); simpl.
    + rewrite nth_error_map2, !nth_error_map, nth_error_range.
      destruct (nth_error row j) as [vj|]; simpl; [|reflexivity].
      destruct (Nat.ltb j (get_shape1 (primary inputs))); reflexivity.
    + destruct (nth_error row j); reflexivity.
  - reflexivity.
Qed.

(** ** The batch-size schedule *)

(** [sqrt_div4_int32 n] is the floor of [sqrt n / 4]. *)
Lemma sqrt_div4_int32_spec (n : Z) :
  (0 <= n)%Z ->
  let m := Np.sqrt_div4_int32 n in
  (0 <= m /\ (4 * m) * (4 * m) <= n < (4 * (m + 1)) * (4 * (m + 1)))%Z.
Proof.
  intros Hn m.
  unfold Np.sqrt_div4_int32 in m.
  pose proof (Z.sqrt_spec n Hn) as [Hlo Hhi].
  pose proof (Z.sqrt_nonneg n) as Hs.
  assert (Hm : (4 * m <= Z.sqrt n < 4 * m + 4)%Z).
  { subst m.
    pose proof (Z.mul_div_le (Z.sqrt n) 4 ltac:(lia)).
    pose proof (Z.mul_succ_div_gt (Z.sqrt n) 4 ltac:(lia)).
    lia. }
  assert (H0 : (0 <= m)%Z) by (subst m; apply Z.div_pos; lia).
  split; [exact H0|].
  split; nia.
Qed.

Lemma length_map2 {A B C : Type} (f : A -> B -> C) (l1 : list A) (l2 : list B) :
  length (map2 f l1 l2) = Nat.min (length l1) (length l2).
Proof.
  revert l2.
  induction l1 as [|a l1 IH]; intros [|b l2]; simpl; try reflexivity.
  rewrite IH.
  reflexivity.
Qed.

Lemma map2_map_l {A A' B C : Type} (f : A' -> B -> C) (g : A -> A') (l1 : list A) (l2 : list B) :
  map2 f (map g l1) l2 = map2 (fun a b => f (g a) b) l1 l2.
Proof.
  revert l2.
  induction l1 as [|a l1 IH]; intros [|b l2]; simpl; try reflexivity.
  rewrite IH.
  reflexivity.
Qed.

Lemma map2_map_r {A B B' C : Type} (f : A -> B' -> C) (g : B -> B') (l1 : list A) (l2 : list B) :
  map2 f l1 (map g l2) = map2 (fun a b => f a (g b)) l1 l2.
Proof.
  revert l2.
  induction l1 as [|a l1 IH]; intros [|b l2]; simpl; try reflexivity.
  rewrite IH.
  reflexivity.
Qed.

Lemma removelast_map {A B : Type} (f : A -> B) (l : list A) :
  removelast (map f l) = map f (removelast l).
Proof.
  induction l as [|a l IH]; simpl; [reflexivity|].
  destruct l as [|a' l]; simpl in *; [reflexivity|].
  rewrite IH.
  reflexivity.
Qed.

Lemma length_removelast {A : Type} (l : list A) :
  length (removelast l) = (length l - 1)%nat.
Proof.
  induction l as [|a l IH]; simpl; [reflexivity|].
  destruct l as [|a' l]; simpl in *; [reflexivity|].
  rewrite IH.
  lia.
Qed.

Lemma removelast_snoc {A : Type} (l : list A) (x : A) :
  removelast (l ++ [x]) = l.
Proof.
  induction l as [|a l IH]; simpl; [reflexivity|].
  rewrite IH.
  destruct l; reflexivity.
Qed.

(** ** Shapes *)

Lemma has_shape1_iff {A : Type} (n : nat) (l : list A) :
  has_shape1 n l = true <-> length l = n.
Proof.
  unfold has_shape1.
  apply Nat.eqb_eq.
Qed.

Lemma has_shape2_iff {A : Type} (n m : nat) (t : list (list A)) :
  has_shape2 n m t = true <-> length t = n /\ Forall (fun r => length r = m) t.
Proof.
  unfold has_shape2.
  rewrite andb_true_iff, Nat.eqb_eq, forallb_forall, Forall_forall.
  split; intros [Hn Hall]; (split; [exact Hn|]); intros r Hr.
  - apply has_shape1_iff, Hall, Hr.
  - apply has_shape1_iff, Hall, Hr.
Qed.

Lemma has_shape3_iff {A : Type} (n m p : nat) (t : list (list (list A))) :
  has_shape3 n m p t = true
  <-> length t = n /\ Forall (fun x => has_shape2 m p x = true) t.
Proof.
  unfold has_shape3.
  rewrite andb_true_iff, Nat.eqb_eq, forallb_forall, Forall_forall.
  reflexivity.
Qed.

Lemma has_shape4_iff {A : Type} (n m p q : nat) (t : list (list (list (list A)))) :
  has_shape4 n m p q t = true
  <-> length t = n /\ Forall (fun x => has_shape3 m p q x = true) t.
Proof.
  unfold has_shape4.
  rewrite andb_true_iff, Nat.eqb_eq, forallb_forall, Forall_forall.
  reflexivity.
Qed.

Lemma has_shape2_map {A B : Type} (f : A -> B) (n m : nat) (t : list (list A)) :
  has_shape2 n m t = true -> has_shape2 n m (map (map f) t) = true.
Proof.
  rewrite !has_shape2_iff.
  intros [Hn Hall].
  split; [rewrite length_map; exact Hn|].
  apply Forall_map.
  eapply Forall_impl; [|exact Hall].
  intros r Hr; simpl.
  rewrite length_map; exact Hr.
Qed.

Lemma has_shape2_map2 {A B C : Type} (f : A -> B -> C) (n m : nat)
    (t1 : list (list A)) (t2 : list (list B)) :
  has_shape2 n m t1 = true -> has_shape2 n m t2 = true ->
  has_shape2 n m (map2 (map2 f) t1 t2) = true.
Proof.
  rewrite !has_shape2_iff.
  intros [Hn1 Hall1] [Hn2 Hall2].
  split; [rewrite length_map2; lia|].
  clear Hn1 Hn2.
  revert t2 Hall2.
  induction Hall1 as [|r1 t1 Hr1 _ IH]; intros [|r2 t2] Hall2; simpl; try constructor.
  - rewrite length_map2.
    inversion Hall2; subst; lia.
  - apply IH.
    inversion Hall2; assumption.
Qed.

Lemma same_shape_of_shape2 {A B : Type} (n m : nat) (a : list (list A)) (b : list (list B)) :
  has_shape2 n m a = true -> has_shape2 n m b = true -> Tf.same_shape a b = true.
Proof.
  rewrite !has_shape2_iff.
  intros [Hna Ha] [Hnb Hb].
  unfold Tf.same_shape.
  rewrite Hna, Hnb, Nat.eqb_refl; simpl.
  apply forallb_forall.
  intros [ra rb] Hin; simpl.
  rewrite Forall_forall in Ha, Hb.
  rewrite (Ha ra (in_combine_l _ _ _ _ Hin)), (Hb rb (in_combine_r _ _ _ _ Hin)).
  apply Nat.eqb_refl.
Qed.

(** ** The error monad on lists *)

Lemma mapM_ok_map {A B : Type} (f : A -> result B) (g : A -> B) (l : list A) :
  Forall (fun x => f x = Ok (g x)) l -> mapM f l = Ok (map g l).
Proof.
  induction 1 as [|x l Hx _ IH]; simpl; [reflexivity|].
  rewrite Hx, IH.
  reflexivity.
Qed.

Lemma mapM_Ok_Forall2 {A B : Type} (f : A -> result B) (l : list A) (r : list B) :
  mapM f l = Ok r -> Forall2 (fun a b => f a = Ok b) l r.
Proof.
  revert r.
  induction l as [|a l IH]; simpl; intros r H.
  - injection H as <-; constructor.
  - destruct (f a) as [b|e] eqn:Hfa; [|discriminate].
    destruct (mapM f l) as [bs|e]; [|discriminate].
    injection H as <-.
    constructor; [exact Hfa | apply IH; reflexivity].
Qed.

(** ** Reshaping *)

Lemma concat_concat_map {A : Type} (t : list (list (list A))) :
  concat (concat t) = concat (map (@concat A) t).
Proof.
  induction t as [|x t IH]; simpl; [reflexivity|].
  rewrite concat_app, IH.
  reflexivity.
Qed.

Lemma length_concat_uniform {A : Type} (c : nat) (rows : list (list A)) :
  Forall (fun r => length r = c) rows -> length (concat rows) = (length rows * c)%nat.
Proof.
  induction 1 as [|r rows Hr _ IH]; simpl; [reflexivity|].
  rewrite length_app, Hr, IH.
  reflexivity.
Qed.

Lemma chunks_concat {A : Type} (c : nat) (rows : list (list A)) :
  Forall (fun r => length r = c) rows ->
  Tf.chunks (length rows) c (concat rows) = rows.
Proof.
  induction 1 as [|r rows Hr _ IH]; simpl; [reflexivity|].
  subst c.
  rewrite firstn_app, Nat.sub_diag, firstn_all, firstn_O, app_nil_r.
  rewrite skipn_app, Nat.sub_diag, skipn_all; simpl.
  rewrite IH.
  reflexivity.
Qed.

Lemma length_chunks {A : Type} (rows cols : nat) (flat : list A) :
  length (Tf.chunks rows cols flat) = rows.
Proof.
  revert flat.
  induction rows as [|rows IH]; intros flat; simpl; [reflexivity|].
  rewrite IH.
  reflexivity.
Qed.

Lemma has_shape2_concat {A : Type} (m p : nat) (x : list (list A)) :
  has_shape2 m p x = true -> length (concat x) = (m * p)%nat.
Proof.
  rewrite has_shape2_iff.
  intros [Hm Hall].
  rewrite (length_concat_uniform _ _ Hall), Hm.
  reflexivity.
Qed.

Lemma has_shape3_map_concat {A : Type} (n m p : nat) (t : list (list (list A))) :
  has_shape3 n m p t = true -> has_shape2 n (m * p) (map (@concat A) t) = true.
Proof.
  rewrite has_shape3_iff, has_shape2_iff.
  intros [Hn Hall].
  split; [rewrite length_map; exact Hn|].
  apply Forall_map.
  eapply Forall_impl; [|exact Hall].
  intros x Hx; simpl.
  apply has_shape2_concat, Hx.
Qed.

Lemma reshape_shape3 {A : Type} (n m p : nat) (t : list (list (list A))) :
  has_shape3 n m p t = true ->
  Tf.reshape t n (m * p) = Ok (map (@concat A) t).
Proof.
  intros Hshape.
  pose proof (has_shape3_map_concat _ _ _ _ Hshape) as H2.
  apply has_shape2_iff in H2 as [Hlen Hall].
  unfold Tf.reshape, Tf.flatten3.
  rewrite concat_concat_map, (length_concat_uniform _ _ Hall), Hlen, Nat.eqb_refl.
  rewrite <- Hlen at 1.
  rewrite (chunks_concat _ _ Hall).
  reflexivity.
Qed.

(** ** [top_k] *)

Lemma extract_max_None (l : list (nat * Q)) :
  Tf.extract_max l = None -> l = [].
Proof.
  destruct l as [|c cs]; simpl; [reflexivity|].
  destruct (Tf.extract_max cs) as [[m rest]|]; [|discriminate].
  destruct (Qle_bool (snd m) (snd c)); discriminate.
Qed.

Lemma extract_max_perm (l : list (nat * Q)) (m : nat * Q) (rest : list (nat * Q)) :
  Tf.extract_max l = Some (m, rest) -> Permutation l (m :: rest).
Proof.
  revert m rest.
  induction l as [|c cs IH]; simpl; intros m rest H; [discriminate|].
  destruct (Tf.extract_max cs) as [[m' rest']|] eqn:Hcs.
  - destruct (Qle_bool (snd m') (snd c)); injection H as <- <-.
    + apply Permutation_refl.
    + apply perm_trans with (c :: m' :: rest').
      * apply perm_skip, IH; reflexivity.
      * apply perm_swap.
  - injection H as <- <-.
    apply extract_max_None in Hcs; subst cs.
    apply Permutation_refl.
Qed.

Lemma extract_max_ge (l : list (nat * Q)) (m : nat * Q) (rest : list (nat * Q)) :
  Tf.extract_max l = Some (m, rest) -> Forall (fun x => snd x <= snd m) l.
Proof.
  revert m rest.
  induction l as [|c cs IH]; simpl; intros m rest H; [discriminate|].
  destruct (Tf.extract_max cs) as [[m' rest']|] eqn:Hcs.
  - specialize (IH m' rest' eq_refl).
    destruct (Qle_bool (snd m') (snd c)) eqn:Hle; injection H as <- <-.
    + apply Qle_bool_iff in Hle.
      constructor; [apply Qle_refl|].
      eapply Forall_impl; [|exact IH].
      intros x Hx; simpl in Hx.
      eapply Qle_trans; [exact Hx | exact Hle].
    + constructor; [|exact IH].
      destruct (Qlt_le_dec (snd m') (snd c)) as [Hlt | Hge]; [|exact Hge].
      apply Qlt_le_weak, Qle_bool_iff in Hlt.
      congruence.
  - injection H as <- <-.
    apply extract_max_None in Hcs; subst cs.
    constructor; [apply Qle_refl | constructor].
Qed.

(** The selection is a prefix of a rearrangement of the candidates. *)
Lemma select_perm (k : nat) (l : list (nat * Q)) :
  exists rest, Permutation l (Tf.select k l ++ rest).
Proof.
  revert l.
  induction k as [|k IH]; intros l; simpl.
  - exists l; apply Permutation_refl.
  - destruct (Tf.extract_max l) as [[m rest]|] eqn:Hmax.
    + destruct (IH rest) as [rest' Hrest'].
      exists rest'; simpl.
      apply perm_trans with (m :: rest).
      * apply extract_max_perm, Hmax.
      * apply perm_skip, Hrest'.
    + exists l; apply Permutation_refl.
Qed.

(** The selection holds the largest candidates: every candidate left out
    is at most every selected one. *)
Lemma select_largest (k : nat) (l : list (nat * Q)) :
  exists rest,
    Permutation l (Tf.select k l ++ rest)
    /\ ((k <= length l)%nat ->
        Forall (fun x => Forall (fun y => snd y <= snd x) rest) (Tf.select k l)).
Proof.
  revert l.
  induction k as [|k IH]; intros l; simpl.
  - exists l.
    split; [apply Permutation_refl | constructor].
  - destruct (Tf.extract_max l) as [[m rest]|] eqn:Hmax.
    + destruct (IH rest) as (rest' & Hperm' & Hdom').
      pose proof (extract_max_perm _ _ _ Hmax) as Hperm.
      pose proof (extract_max_ge _ _ _ Hmax) as Hge.
      exists rest'.
      split.
      * apply perm_trans with (m :: rest); [exact Hperm|].
        simpl; apply perm_skip, Hperm'.
      * intros Hk.
        apply Permutation_length in Hperm as Hlen.
        simpl in Hlen.
        constructor; [|apply Hdom'; lia].
        rewrite Forall_forall in Hge |- *.
        intros y Hy.
        apply Hge.
        apply (Permutation_in _ (Permutation_sym Hperm)).
        right.
        apply (Permutation_in _ (Permutation_sym Hperm')).
        apply in_or_app; right; exact Hy.
    + exists l.
      split; [apply Permutation_refl|].
      apply extract_max_None in Hmax; subst l.
      simpl; lia.
Qed.

Lemma length_select (k : nat) (l : list (nat * Q)) :
  (k <= length l)%nat -> length (Tf.select k l) = k.
Proof.
  revert l.
  induction k as [|k IH]; intros l Hk; simpl; [reflexivity|].
  destruct (Tf.extract_max l) as [[m rest]|] eqn:Hmax.
  - simpl.
    apply extract_max_perm, Permutation_length in Hmax.
    simpl in Hmax.
    rewrite IH by lia.
    reflexivity.
  - apply extract_max_None in Hmax; subst l.
    simpl in Hk; lia.
Qed.

Lemma select_In (k : nat) (l : list (nat * Q)) (x : nat * Q) :
  In x (Tf.select k l) -> In x l.
Proof.
  intros Hin.
  destruct (select_perm k l) as [rest Hperm].
  apply Permutation_sym in Hperm.
  apply (Permutation_in _ Hperm), in_or_app.
  left; exact Hin.
Qed.

Lemma In_combine_seq {A : Type} (row : list A) (s i : nat) (v : A) :
  In (i, v) (combine (seq s (length row)) row) ->
  (s <= i)%nat /\ nth_error row (i - s) = Some v.
Proof.
  revert s.
  induction row as [|a row IH]; intros s; simpl; [contradiction|].
  intros [Heq | Hin].
  - injection Heq as <- <-.
    rewrite Nat.sub_diag.
    split; [lia | reflexivity].
  - apply IH in Hin as [Hle Hnth].
    split; [lia|].
    replace (i - s)%nat with (S (i - S s)) by lia.
    exact Hnth.
Qed.

Lemma map_fst_combine_seq {A : Type} (row : list A) (s : nat) :
  map fst (combine (seq s (length row)) row) = seq s (length row).
Proof.
  revert s.
  induction row as [|a row IH]; intros s; simpl; [reflexivity|].
  rewrite IH.
  reflexivity.
Qed.

(** Every selected (index, value) pair is an entry of the row. *)
Lemma top_k_row_In (k : nat) (row : list Q) (i : nat) (v : Q) :
  In (i, v) (Tf.top_k_row k row) -> nth_error row i = Some v.
Proof.
  unfold Tf.top_k_row.
  intros Hin.
  apply select_In, In_combine_seq in Hin as [_ Hnth].
  rewrite Nat.sub_0_r in Hnth.
  exact Hnth.
Qed.

Lemma length_top_k_row (k : nat) (row : list Q) :
  (k <= length row)%nat -> length (Tf.top_k_row k row) = k.
Proof.
  intros Hk.
  apply length_select.
  rewrite length_combine, length_seq.
  lia.
Qed.

(** The selected indices are pairwise distinct. *)
Lemma top_k_row_NoDup (k : nat) (row : list Q) :
  NoDup (map fst (Tf.top_k_row k row)).
Proof.
  unfold Tf.top_k_row.
  destruct (select_perm k (combine (seq 0 (length row)) row)) as [rest Hperm].
  apply (Permutation_map fst) in Hperm.
  rewrite map_fst_combine_seq, map_app in Hperm.
  pose proof (Permutation_NoDup Hperm (seq_NoDup (length row) 0)) as Hnd.
  apply NoDup_app_remove_r in Hnd.
  exact Hnd.
Qed.

Lemma Permutation_length_filter {A : Type} (g : A -> bool) (l1 l2 : list A) :
  Permutation l1 l2 -> length (filter g l1) = length (filter g l2).
Proof.
  induction 1 as [|x l1 l2 _ IH|x y l|l1 l2 l3 _ IH1 _ IH2]; simpl.
  - reflexivity.
  - destruct (g x); simpl; rewrite IH; reflexivity.
  - destruct (g x), (g y); reflexivity.
  - rewrite IH1; exact IH2.
Qed.

(** When every candidate satisfying [g] has a larger value than every
    candidate that does not, and at least [k] candidates satisfy [g], the
    [k] selected candidates all satisfy [g]. *)
Lemma select_preferred (g : nat * Q -> bool) (k : nat) (l : list (nat * Q)) :
  (forall x y, In x l -> In y l -> g x = true -> g y = false -> snd y < snd x) ->
  (k <= length (filter g l))%nat ->
  Forall (fun x => g x = true) (Tf.select k l).
Proof.
  revert l.
  induction k as [|k IH]; intros l Hsep Hcount; simpl; [constructor|].
  destruct (Tf.extract_max l) as [[m rest]|] eqn:Hmax.
  - pose proof (extract_max_perm _ _ _ Hmax) as Hperm.
    pose proof (extract_max_ge _ _ _ Hmax) as Hge.
    rewrite Forall_forall in Hge.
    assert (Hm : g m = true).
    { destruct (g m) eqn:Hgm; [reflexivity|].
      destruct (filter g l) as [|x xs] eqn:Hfilter; [simpl in Hcount; lia|].
      assert (Hx : In x (filter g l)) by (rewrite Hfilter; left; reflexivity).
      apply filter_In in Hx as [Hxl Hgx].
      assert (Hml : In m l).
      { apply (Permutation_in _ (Permutation_sym Hperm)); left; reflexivity. }
      pose proof (Hsep x m Hxl Hml Hgx Hgm) as Hlt.
      pose proof (Hge x Hxl) as Hle.
      exfalso; exact (Qlt_not_le _ _ Hlt Hle). }
    constructor; [exact Hm|].
    apply IH.
    + intros x y Hx Hy.
      apply Hsep; apply (Permutation_in _ (Permutation_sym Hperm)); right; assumption.
    + rewrite (Permutation_length_filter g _ _ Hperm) in Hcount.
      simpl in Hcount.
      rewrite Hm in Hcount; simpl in Hcount.
      lia.
  - constructor.
Qed.

(** Counting the indices of a row whose entry satisfies [h]. *)
Lemma length_filter_combine_seq {A B : Type} (h : A -> bool) (mrow : list A) (row : list B) (s : nat) :
  length mrow = length row ->
  length (filter (fun x : nat * B =>
                    match nth_error mrow (fst x - s) with
                    | Some w => h w
                    | None => false
                    end) (combine (seq s (length row)) row))
  = length (filter h mrow).
Proof.
  revert row s.
  induction mrow as [|a mrow IH]; intros [|v row] s Hlen; simpl in *; try discriminate.
  - reflexivity.
  - injection Hlen as Hlen.
    assert (Hext : forall x : nat * B,
               In x (combine (seq (S s) (length row)) row) ->
               match nth_error (a :: mrow) (fst x - s) with
               | Some w => h w
               | None => false
               end =
               match nth_error mrow (fst x - S s) with
               | Some w => h w
               | None => false
               end).
    { intros [i w] Hin.
      apply in_combine_l, in_seq in Hin; simpl.
      replace (i - s)%nat with (S (i - S s)) by lia.
      reflexivity. }
    rewrite (filter_ext_in _ _ _ Hext), Nat.sub_diag.
    cbn [nth_error].
    destruct (h a); cbn [length]; rewrite (IH row (S s) Hlen); reflexivity.
Qed.

(** ** [gather_nd] along the rows *)

Lemma map2_pair_const {A B C : Type} (b : A) (ys : list C) (idx : list B) :
  length ys = length idx ->
  map2 pair (map (fun _ => b) ys) idx = map (pair b) idx.
Proof.
  revert idx.
  induction ys as [|y ys IH]; intros [|c idx] Hlen; simpl in *; try discriminate.
  - reflexivity.
  - rewrite IH by lia.
    reflexivity.
Qed.

Lemma gather_nd_rows_from {A : Type} (d : A) (k : nat) (ys : list Z)
    (pre suf : list (list A)) (indices : list (list nat)) :
  length ys = k ->
  Forall2 (fun prow idx => length idx = k /\ Forall (fun c => (c < length prow)%nat) idx)
          suf indices ->
  mapM (mapM (fun ix : nat * nat =>
                match at2 (pre ++ suf) (fst ix) (snd ix) with
                | Some v => Ok v
                | None => Raise InvalidArgumentError
                end))
       (Tf.stack2 (Tf.meshgrid_ij_fst (seq (length pre) (length suf)) ys) indices)
  = Ok (map2 (fun prow idx => map (fun c => nth c prow d) idx) suf indices).
Proof.
  intros Hys Hall.
  revert pre.
  induction Hall as [|prow idx suf indices [Hlen Hin] _ IH]; intros pre; simpl.
  - reflexivity.
  - rewrite map2_pair_const by congruence.
    rewrite mapM_ok_map with (g := fun ix : nat * nat => nth (snd ix) prow d).
    + specialize (IH (pre ++ [prow])).
      rewrite <- app_assoc in IH; simpl in IH.
      rewrite length_app in IH; simpl in IH.
      rewrite Nat.add_1_r in IH.
      unfold Tf.stack2 in IH.
      rewrite IH.
      rewrite map_map; simpl.
      reflexivity.
    + apply Forall_map.
      eapply Forall_impl; [|exact Hin].
      intros c Hc; simpl.
      unfold at2.
      rewrite nth_error_app2 by lia.
      rewrite Nat.sub_diag; simpl.
      rewrite (nth_error_nth' prow d Hc).
      reflexivity.
Qed.

Lemma gather_nd_rows {A : Type} (d : A) (k : nat) (params : list (list A))
    (indices : list (list nat)) :
  Forall2 (fun prow idx => length idx = k /\ Forall (fun c => (c < length prow)%nat) idx)
          params indices ->
  Tf.gather_nd params
    (Tf.stack2 (Tf.meshgrid_ij_fst (seq 0 (length params)) (Tf.range k)) indices)
  = Ok (map2 (fun prow idx => map (fun c => nth c prow d) idx) params indices).
Proof.
  intros Hall.
  unfold Tf.gather_nd.
  apply (gather_nd_rows_from d k (Tf.range k) [] params indices).
  - unfold Tf.range.
    rewrite length_map, length_seq.
    reflexivity.
  - exact Hall.
Qed.

(** ** The stages of [loss_function] on a well-formed batch *)

Lemma squeeze3_shape4 (n m p : nat) (t : list (list (list (list Q)))) :
  has_shape4 n m p 1 t = true ->
  Tf.squeeze3 t = Ok (map (map (map (hd 0%Q))) t).
Proof.
  intros H4.
  apply has_shape4_iff in H4 as [_ H4].
  unfold Tf.squeeze3.
  apply mapM_ok_map.
  eapply Forall_impl; [|exact H4].
  intros x H3.
  apply has_shape3_iff in H3 as [_ H3].
  apply mapM_ok_map.
  eapply Forall_impl; [|exact H3].
  intros y H2.
  apply has_shape2_iff in H2 as [_ H2].
  apply mapM_ok_map.
  eapply Forall_impl; [|exact H2].
  intros c Hc; simpl in Hc.
  destruct c as [|q [|q' c]]; simpl in Hc; try discriminate.
  reflexivity.
Qed.

Lemma has_shape3_squeezed (n m p : nat) (t : list (list (list (list Q)))) :
  has_shape4 n m p 1 t = true ->
  has_shape3 n m p (map (map (map (hd 0%Q))) t) = true.
Proof.
  rewrite has_shape4_iff, has_shape3_iff.
  intros [Hn H4].
  split; [rewrite length_map; exact Hn|].
  apply Forall_map.
  eapply Forall_impl; [|exact H4].
  intros x H3; simpl.
  apply has_shape3_iff in H3 as [Hm H3].
  apply has_shape2_iff.
  split; [rewrite length_map; exact Hm|].
  apply Forall_map.
  eapply Forall_impl; [|exact H3].
  intros y H2; simpl.
  apply has_shape2_iff in H2 as [Hp _].
  rewrite length_map; exact Hp.
Qed.

Lemma length_range (n : nat) : length (Tf.range n) = n.
Proof.
  unfold Tf.range.
  rewrite length_map, length_seq.
  reflexivity.
Qed.

Lemma has_shape3_get_mask (self : ContactMapTask) (inputs : Inputs) (n : nat) :
  has_shape2 n (seqlen_of inputs) (valid_mask inputs) = true ->
  has_shape3 n (seqlen_of inputs) (seqlen_of inputs) (get_mask self inputs) = true.
Proof.
  unfold seqlen_of, get_mask.
  set (L := get_shape1 (primary inputs)).
  intros Hvm.
  apply has_shape2_iff in Hvm as [Hn Hrows].
  apply has_shape3_iff.
  unfold Tf.and_broadcast0, Tf.outer_and.
  rewrite !length_map.
  split; [exact Hn|].
  rewrite map_map.
  apply Forall_map.
  eapply Forall_impl; [|exact Hrows].
  intros row Hrow; simpl.
  apply has_shape2_map2.
  - apply has_shape2_iff.
    rewrite length_map.
    split; [exact Hrow|].
    apply Forall_map, Forall_forall.
    intros vi _.
    rewrite length_map; exact Hrow.
  - unfold Tf.greater_equal, Tf.abs_outer_diff.
    apply has_shape2_map, has_shape2_iff.
    rewrite length_map, length_range.
    split; [reflexivity|].
    apply Forall_map, Forall_forall.
    intros xi _.
    rewrite length_map, length_range; reflexivity.
Qed.

Lemma reduce_max_upper (hi : Z) (l : list Z) :
  (Tf.int32_min <= hi)%Z -> Forall (fun x => (x <= hi)%Z) l -> (Tf.reduce_max l <= hi)%Z.
Proof.
  intros Hmin.
  induction 1 as [|x l Hx _ IH]; simpl; [exact Hmin|].
  fold (Tf.reduce_max l).
  lia.
Qed.

Lemma reduce_max_ge (l : list Z) (x : Z) :
  In x l -> (x <= Tf.reduce_max l)%Z.
Proof.
  induction l as [|y l IH]; simpl; [contradiction|].
  fold (Tf.reduce_max l).
  intros [-> | Hin]; [lia|].
  specialize (IH Hin); lia.
Qed.

Lemma reduce_max_In (l : list Z) :
  l <> [] -> Forall (fun x => (Tf.int32_min <= x)%Z) l -> In (Tf.reduce_max l) l.
Proof.
  intros Hne Hall.
  induction Hall as [|x l Hx Hall IH]; [contradiction|].
  simpl; fold (Tf.reduce_max l).
  destruct l as [|y l].
  - left; simpl; unfold Tf.reduce_max; simpl; lia.
  - specialize (IH ltac:(discriminate)).
    destruct (Z.max_spec x (Tf.reduce_max (y :: l))) as [[_ ->] | [_ ->]].
    + right; exact IH.
    + left; reflexivity.
Qed.

Lemma top_k_shape2 (n m : nat) (t : list (list Q)) (k : Z) :
  has_shape2 n m t = true -> (0 <= k)%Z -> (Z.to_nat k <= m)%nat ->
  Tf.top_k t k
  = Ok (map (map snd) (map (Tf.top_k_row (Z.to_nat k)) t),
        map (map fst) (map (Tf.top_k_row (Z.to_nat k)) t)).
Proof.
  intros Hshape Hk Hkm.
  apply has_shape2_iff in Hshape as [_ Hrows].
  unfold Tf.top_k.
  replace (k <? 0)%Z with false by (symmetry; apply Z.ltb_ge; exact Hk).
  replace (forallb _ t) with true; [reflexivity|].
  symmetry; apply forallb_forall.
  rewrite Forall_forall in Hrows.
  intros row Hrow.
  rewrite (Hrows row Hrow).
  apply Nat.leb_le; exact Hkm.
Qed.

Lemma wf_batch_inv (inputs : Inputs) (outputs : Outputs) :
  wf_batch inputs outputs = true ->
  (1 <= batch_size_of inputs)%nat
  /\ has_shape2 (batch_size_of inputs) (seqlen_of inputs) (primary inputs) = true
  /\ has_shape2 (batch_size_of inputs) (seqlen_of inputs) (valid_mask inputs) = true
  /\ has_shape3 (batch_size_of inputs) (seqlen_of inputs) (seqlen_of inputs)
       (contact_map inputs) = true
  /\ has_shape4 (batch_size_of inputs) (seqlen_of inputs) (seqlen_of inputs) 1
       (contact_prob outputs) = true
  /\ Forall (fun n => (0 <= n <= Z.of_nat (seqlen_of inputs))%Z) (protein_length inputs).
Proof.
  unfold wf_batch.
  rewrite !andb_true_iff, Nat.leb_le, forallb_forall, Forall_forall.
  intros [[[[[HB Hp] Hv] Hc] Ho] Hl].
  repeat split; try assumption.
  - apply Hl in H. apply andb_true_iff in H as [H _]. apply Z.leb_le, H.
  - apply Hl in H. apply andb_true_iff in H as [_ H]. apply Z.leb_le, H.
Qed.

(** On a well-formed batch the largest true length lies between 0 and
    the padded length. *)
Lemma wf_batch_max_prot_len (inputs : Inputs) (outputs : Outputs) :
  wf_batch inputs outputs = true ->
  (0 <= Tf.reduce_max (protein_length inputs) <= Z.of_nat (seqlen_of inputs))%Z.
Proof.
  intros Hwf.
  apply wf_batch_inv in Hwf as (HB & _ & _ & _ & _ & Hl).
  unfold batch_size_of in HB.
  split.
  - destruct (protein_length inputs) as [|x l]; [simpl in HB; lia|].
    inversion Hl as [|? ? Hx _]; subst.
    cbv beta in Hx.
    pose proof (reduce_max_ge (x :: l) x (or_introl eq_refl)).
    lia.
  - apply reduce_max_upper.
    + unfold Tf.int32_min; lia.
    + eapply Forall_impl; [|exact Hl].
      intros n Hn; simpl in Hn; lia.
Qed.

Lemma wf_batch_k (inputs : Inputs) (outputs : Outputs) :
  wf_batch inputs outputs = true ->
  (0 <= Tf.reduce_max (protein_length inputs) / 5)%Z
  /\ (top_l_over_5_k inputs <= seqlen_of inputs * seqlen_of inputs)%nat.
Proof.
  intros Hwf.
  pose proof (wf_batch_max_prot_len _ _ Hwf) as [Hlo Hhi].
  unfold top_l_over_5_k.
  set (M := Tf.reduce_max (protein_length inputs)) in *.
  assert (Hdiv : (0 <= M / 5 <= M)%Z).
  { split; [apply Z.div_pos; lia|].
    apply Z.div_le_upper_bound; lia. }
  split; [lia|].
  assert (Z.to_nat (M / 5) <= seqlen_of inputs)%nat by lia.
  nia.
Qed.

Lemma Forall2_of_Forall {A B : Type} (P : A -> Prop) (Q : B -> Prop) (R : A -> B -> Prop)
    (l1 : list A) (l2 : list B) :
  length l1 = length l2 -> Forall P l1 -> Forall Q l2 ->
  (forall a b, P a -> Q b -> R a b) ->
  Forall2 R l1 l2.
Proof.
  intros Hlen H1 H2 HR.
  revert l2 Hlen H2.
  induction H1 as [|a l1 Ha _ IH]; intros [|b l2] Hlen H2; simpl in Hlen; try discriminate.
  - constructor.
  - inversion H2; subst.
    constructor; [apply HR; assumption|].
    apply IH; [lia | assumption].
Qed.

(** The indices picked by [top_k] fit the rows they are gathered from. *)
Lemma top_k_indices_fit {A : Type} (n m k : nat) (params : list (list A)) (t : list (list Q)) :
  has_shape2 n m params = true -> has_shape2 n m t = true -> (k <= m)%nat ->
  Forall2 (fun prow idx => length idx = k /\ Forall (fun c => (c < length prow)%nat) idx)
          params (map (map fst) (map (Tf.top_k_row k) t)).
Proof.
  intros Hp Ht Hk.
  apply has_shape2_iff in Hp as [Hpn Hp], Ht as [Htn Ht].
  apply Forall2_of_Forall
    with (P := fun prow => length prow = m)
         (Q := fun idx => length idx = k /\ Forall (fun c => (c < m)%nat) idx).
  - rewrite !length_map; congruence.
  - exact Hp.
  - rewrite map_map.
    apply Forall_map.
    eapply Forall_impl; [|exact Ht].
    intros row Hrow; simpl in Hrow |- *.
    split.
    + rewrite length_map.
      apply length_top_k_row; lia.
    + apply Forall_forall.
      intros c Hc.
      apply in_map_iff in Hc as [[c' v] [<- Hin]]; simpl.
      apply top_k_row_In in Hin.
      rewrite <- Hrow.
      apply nth_error_Some; congruence.
  - intros prow idx Hprow [Hlen Hidx].
    split; [exact Hlen|].
    rewrite Hprow; exact Hidx.
Qed.

Lemma getitem_label_contact_map (inputs : Inputs) :
  getitem_label inputs "contact_map" = Ok (contact_map inputs).
Proof. reflexivity. Qed.

Lemma getitem_output_contact_prob (outputs : Outputs) :
  getitem_output outputs "contact_prob" = Ok (contact_prob outputs).
Proof. reflexivity. Qed.

Lemma get_shape01_shape3 {A : Type} (n m p : nat) (t : list (list (list A))) :
  (1 <= n)%nat -> has_shape3 n m p t = true -> get_shape01 t = (n, m).
Proof.
  intros Hn H3.
  apply has_shape3_iff in H3 as [Hlen Hall].
  unfold get_shape01.
  destruct t as [|x t]; simpl in *; [lia|].
  inversion Hall as [|? ? Hx _]; subst.
  apply has_shape2_iff in Hx as [Hx _].
  rewrite Hx; reflexivity.
Qed.

(** [loss_function] succeeds on every well-formed batch, and its local
    variables are the following. *)
Lemma loss_function_locals_wf (xent : Q -> Q -> Q) (min_residue_distance : option Z)
    (inputs : Inputs) (outputs : Outputs) :
  let self := __init__ min_residue_distance in
  wf_batch inputs outputs = true ->
  exists r : Locals,
    loss_function_locals xent self inputs outputs = Ok r
    /\ l_mask r = Tf.cast_bool (flat_mask self inputs)
    /\ l_label r = flat_label inputs
    /\ l_pred r = flat_pred outputs
    /\ l_loss r =
         Tf.div_no_nan
           (Tf.reduce_sum
              (map2 (map2 Qmult)
                 (map2 (map2 xent) (Tf.cast_int (flat_label inputs)) (flat_pred outputs))
                 (Tf.cast_bool (flat_mask self inputs))))
           (Tf.num_present (Tf.cast_bool (flat_mask self inputs)))
    /\ l_max_prot_len r = Tf.reduce_max (protein_length inputs)
    /\ l_indices r =
         map (map fst)
           (map (Tf.top_k_row (top_l_over_5_k inputs)) (ranking_scores self inputs outputs))
    /\ l_l5_labels r =
         Tf.cast_int
           (map2 (fun prow idx => map (fun c => nth c prow 0%Z) idx)
              (flat_label inputs) (l_indices r))
    /\ l_l5_mask r =
         map2 (fun prow idx => map (fun c => nth c prow 0%Q) idx)
           (Tf.cast_bool (flat_mask self inputs)) (l_indices r)
    /\ l_accuracy r =
         (Tf.reduce_sum (map2 (map2 Qmult) (l_l5_labels r) (l_l5_mask r))
          / (Tf.reduce_sum (l_l5_mask r) + epsilon))%Q.
Proof.
  intros self Hwf.
  pose proof (wf_batch_k _ _ Hwf) as [Hk0 Hkm].
  pose proof (wf_batch_inv _ _ Hwf) as (HB & _ & Hv & Hc & Ho & _).
  assert (Hmask : has_shape2 (batch_size_of inputs) (seqlen_of inputs * seqlen_of inputs) (flat_mask self inputs) = true).
  { apply has_shape3_map_concat, has_shape3_get_mask, Hv. }
  assert (Hlabel : has_shape2 (batch_size_of inputs) (seqlen_of inputs * seqlen_of inputs) (flat_label inputs) = true).
  { apply has_shape3_map_concat, Hc. }
  assert (Hpred : has_shape2 (batch_size_of inputs) (seqlen_of inputs * seqlen_of inputs) (flat_pred outputs) = true).
  { apply has_shape3_map_concat, has_shape3_squeezed, Ho. }
  assert (Hmaskq : has_shape2 (batch_size_of inputs) (seqlen_of inputs * seqlen_of inputs) (Tf.cast_bool (flat_mask self inputs)) = true).
  { apply has_shape2_map, Hmask. }
  assert (Hscores : has_shape2 (batch_size_of inputs) (seqlen_of inputs * seqlen_of inputs) (ranking_scores self inputs outputs) = true).
  { apply has_shape2_map2; assumption. }
  unfold loss_function_locals.
  cbn [self __init__ _label_name _output_name].
  rewrite getitem_label_contact_map, getitem_output_contact_prob.
  cbn [bind].
  fold self.
  rewrite (squeeze3_shape4 _ _ _ _ Ho); cbn [bind].
  rewrite (get_shape01_shape3 _ _ _ _ HB Hc).
  rewrite (reshape_shape3 _ _ _ _ (has_shape3_get_mask self inputs (batch_size_of inputs) Hv)); cbn [bind].
  rewrite (reshape_shape3 _ _ _ _ Hc); cbn [bind].
  rewrite (reshape_shape3 _ _ _ _ (has_shape3_squeezed _ _ _ _ Ho)); cbn [bind].
  fold (flat_mask self inputs) (flat_label inputs) (squeezed outputs).
  fold (flat_pred outputs).
  unfold Tf.sigmoid_cross_entropy.
  rewrite (same_shape_of_shape2 _ _ _ _ Hlabel Hpred).
  rewrite (same_shape_of_shape2 _ _ _ _ Hpred Hmaskq); cbn [andb bind].
  fold (ranking_scores self inputs outputs).
  rewrite (top_k_shape2 _ _ _ _ Hscores Hk0 Hkm); cbn [bind].
  fold (top_l_over_5_k inputs).
  assert (HBl : batch_size_of inputs = length (flat_label inputs)).
  { apply has_shape2_iff in Hlabel as [Hl _]; symmetry; exact Hl. }
  assert (HBm : batch_size_of inputs = length (Tf.cast_bool (flat_mask self inputs))).
  { apply has_shape2_iff in Hmaskq as [Hl _]; symmetry; exact Hl. }
  eexists; split.
  - rewrite HBl at 1.
    rewrite (gather_nd_rows 0%Z _ _ _ (top_k_indices_fit _ _ _ _ _ Hlabel Hscores Hkm)).
    cbn [bind].
    rewrite HBm at 1.
    rewrite (gather_nd_rows 0%Q _ _ _ (top_k_indices_fit _ _ _ _ _ Hmaskq Hscores Hkm)).
    cbn [bind].
    reflexivity.
  - cbn [l_mask l_label l_pred l_loss l_max_prot_len l_indices l_l5_labels l_l5_mask
           l_accuracy].
    repeat split.
Qed.

(** ** Sums of rationals *)

Lemma sum_nonneg (l : list Q) :
  Forall (fun x => 0 <= x) l -> 0 <= Tf.sum l.
Proof.
  induction 1 as [|x l Hx _ IH]; simpl.
  - apply Qle_refl.
  - lra.
Qed.

(** Weighting entries of [[0, 1]] by non-negative weights gives at most
    the total weight. *)
Lemma sum_weighted_bounds (ls ms : list Q) :
  Forall (fun l => 0 <= l <= 1) ls -> Forall (fun m => 0 <= m) ms ->
  0 <= Tf.sum (map2 Qmult ls ms) <= Tf.sum ms.
Proof.
  intros Hls.
  revert ms.
  induction Hls as [|l ls Hl _ IH]; intros ms Hms; simpl.
  - split; [apply Qle_refl | apply sum_nonneg, Hms].
  - destruct ms as [|m ms]; simpl.
    + split; apply Qle_refl.
    + inversion Hms as [|? ? Hm Hms']; subst.
      specialize (IH ms Hms').
      assert (0 <= l * m) by (apply Qmult_le_0_compat; lra).
      assert (l * m <= m).
      { assert (Hd : 0 <= (1 - l) * m) by (apply Qmult_le_0_compat; lra).
        lra. }
      lra.
Qed.

Lemma reduce_sum_nonneg (t : list (list Q)) :
  Forall (Forall (fun x => 0 <= x)) t -> 0 <= Tf.reduce_sum t.
Proof.
  intros Ht.
  unfold Tf.reduce_sum.
  apply sum_nonneg, Forall_map.
  eapply Forall_impl; [|exact Ht].
  intros row Hrow; apply sum_nonneg, Hrow.
Qed.

Lemma reduce_sum_weighted_bounds (ls ms : list (list Q)) :
  Forall (Forall (fun l => 0 <= l <= 1)) ls -> Forall (Forall (fun m => 0 <= m)) ms ->
  0 <= Tf.reduce_sum (map2 (map2 Qmult) ls ms) <= Tf.reduce_sum ms.
Proof.
  intros Hls.
  revert ms.
  unfold Tf.reduce_sum.
  induction Hls as [|l ls Hl _ IH]; intros ms Hms; simpl.
  - split; [apply Qle_refl | apply (reduce_sum_nonneg ms Hms)].
  - destruct ms as [|m ms]; simpl.
    + split; apply Qle_refl.
    + inversion Hms as [|? ? Hm Hms']; subst.
      specialize (IH ms Hms').
      pose proof (sum_weighted_bounds l m Hl Hm).
      lra.
Qed.

(** The [0/1] weights of a cast boolean mask. *)
Lemma num_present_cast_bool (t : list (list bool)) :
  Tf.num_present (Tf.cast_bool t) = Tf.reduce_sum (Tf.cast_bool t).
Proof.
  unfold Tf.num_present, Tf.cast_bool.
  f_equal.
  rewrite map_map.
  apply map_ext; intros row.
  rewrite map_map.
  apply map_ext; intros [|]; reflexivity.
Qed.

Lemma div_no_nan_Qdiv (x y : Q) : Tf.div_no_nan x y == x / y.
Proof.
  unfold Tf.div_no_nan.
  destruct (Qeq_bool y 0) eqn:Hy; [|reflexivity].
  apply Qeq_bool_eq in Hy.
  unfold Qdiv.
  rewrite Hy.
  unfold Qinv; simpl.
  ring.
Qed.

Lemma sum_weighted_cast_bool (cs : list Q) (ms : list bool) :
  Tf.sum (map2 Qmult cs (map (fun b : bool => if b then 1 else 0) ms))
  == Tf.sum (map2 (fun c (m : bool) => if m then c else 0) cs ms).
Proof.
  revert ms.
  induction cs as [|c cs IH]; intros [|m ms]; simpl; try reflexivity.
  rewrite IH.
  destruct m; ring.
Qed.

Lemma reduce_sum_weighted_cast_bool (ce : list (list Q)) (mask : list (list bool)) :
  Tf.reduce_sum (map2 (map2 Qmult) ce (Tf.cast_bool mask))
  == Tf.reduce_sum (map2 (map2 (fun c (m : bool) => if m then c else 0)) ce mask).
Proof.
  unfold Tf.reduce_sum, Tf.cast_bool.
  revert mask.
  induction ce as [|cs ce IH]; intros [|ms mask]; simpl; try reflexivity.
  rewrite IH, sum_weighted_cast_bool.
  reflexivity.
Qed.

(** ** Flattened indices *)

Lemma nth_error_concat_uniform {A : Type} (c : nat) (rows : list (list A)) (i j : nat) :
  Forall (fun r => length r = c) rows -> (j < c)%nat ->
  nth_error (concat rows) (i * c + j) = at2 rows i j.
Proof.
  intros Hrows Hj.
  revert i.
  induction Hrows as [|r rows Hr _ IH]; intros i; simpl.
  - unfold at2.
    rewrite !nth_error_nil; reflexivity.
  - destruct i as [|i]; simpl.
    + unfold at2; simpl.
      apply nth_error_app1; lia.
    + rewrite nth_error_app2 by lia.
      replace (c + i * c + j - length r)%nat with (i * c + j)%nat by lia.
      rewrite IH.
      reflexivity.
Qed.

Lemma Forall_Qbounds_of_forallb (lo hi : Q) (l : list Q) :
  forallb (fun p => Qle_bool lo p && Qle_bool p hi)%bool l = true ->
  Forall (fun p => lo <= p <= hi) l.
Proof.
  rewrite forallb_forall, Forall_forall.
  intros H p Hp.
  apply H, andb_true_iff in Hp as [Hlo Hhi].
  split; apply Qle_bool_iff; assumption.
Qed.

(** ** Gathered entries *)

Lemma Forall_gather_rows {A : Type} (P : A -> Prop) (d : A)
    (params : list (list A)) (indices : list (list nat)) :
  P d -> Forall (Forall P) params ->
  Forall (Forall P) (map2 (fun prow idx => map (fun c => nth c prow d) idx) params indices).
Proof.
  intros Hd Hparams.
  revert indices.
  induction Hparams as [|prow params Hprow _ IH]; intros [|idx indices]; simpl;
    try constructor.
  - apply Forall_map, Forall_forall.
    intros c _.
    destruct (nth_in_or_default c prow d) as [Hin | ->]; [|exact Hd].
    rewrite Forall_forall in Hprow.
    apply Hprow, Hin.
  - apply IH.
Qed.

Lemma Forall_cast_bool (t : list (list bool)) :
  Forall (Forall (fun m => 0 <= m <= 1)) (Tf.cast_bool t).
Proof.
  unfold Tf.cast_bool.
  apply Forall_map, Forall_forall.
  intros row _.
  apply Forall_map, Forall_forall.
  intros [|] _; lra.
Qed.

Lemma Forall_flat_label_binary (inputs : Inputs) :
  binary_labels inputs = true ->
  Forall (Forall (fun z => z = 0%Z \/ z = 1%Z)) (flat_label inputs).
Proof.
  unfold binary_labels, flat_label.
  rewrite forallb_forall.
  intros Hbin.
  apply Forall_map, Forall_forall.
  intros x Hx.
  apply Hbin in Hx.
  rewrite forallb_forall in Hx.
  apply Forall_forall.
  intros z Hz.
  apply in_concat in Hz as [row [Hrow Hz]].
  apply Hx in Hrow.
  rewrite forallb_forall in Hrow.
  apply Hrow, orb_true_iff in Hz as [Hz | Hz]; apply Z.eqb_eq in Hz; auto.
Qed.

Lemma Forall_cast_int_binary (t : list (list Z)) :
  Forall (Forall (fun z => z = 0%Z \/ z = 1%Z)) t ->
  Forall (Forall (fun l => 0 <= l <= 1)) (Tf.cast_int t).
Proof.
  intros Ht.
  unfold Tf.cast_int.
  apply Forall_map.
  eapply Forall_impl; [|exact Ht].
  intros row Hrow.
  apply Forall_map.
  eapply Forall_impl; [|exact Hrow].
  intros z [-> | ->]; unfold inject_Z; lra.
Qed.

Lemma at2_map_concat {A : Type} (n m p : nat) (t : list (list (list A))) (b i j : nat) :
  has_shape3 n m p t = true -> (j < p)%nat ->
  at2 (map (@concat A) t) b (i * p + j) = at3 t b i j.
Proof.
  intros H3 Hj.
  apply has_shape3_iff in H3 as [_ H3].
  unfold at2, at3.
  rewrite nth_error_map.
  destruct (nth_error t b) as [x|] eqn:Hx; simpl; [|reflexivity].
  rewrite Forall_forall in H3.
  pose proof (H3 x (nth_error_In _ _ Hx)) as H2.
  apply has_shape2_iff in H2 as [_ H2].
  rewrite (nth_error_concat_uniform p x i j H2 Hj).
  reflexivity.
Qed.

(** Within a batch every entry of the mask is defined. *)
Lemma get_mask_at_wf (self : ContactMapTask) (inputs : Inputs) (n b i j : nat) :
  has_shape2 n (seqlen_of inputs) (valid_mask inputs) = true ->
  (b < n)%nat -> (i < seqlen_of inputs)%nat -> (j < seqlen_of inputs)%nat ->
  exists vi vj : bool,
    at2 (valid_mask inputs) b i = Some vi
    /\ at2 (valid_mask inputs) b j = Some vj
    /\ at3 (get_mask self inputs) b i j
       = Some (vi && vj
               && (_min_residue_distance self <=? Z.abs (Z.of_nat j - Z.of_nat i))%Z)%bool.
Proof.
  intros Hv Hb Hi Hj.
  apply has_shape2_iff in Hv as [Hn Hrows].
  rewrite get_mask_at.
  unfold at2.
  destruct (nth_error (valid_mask inputs) b) as [row|] eqn:Hrow.
  - rewrite Forall_forall in Hrows.
    pose proof (Hrows row (nth_error_In _ _ Hrow)) as Hlen.
    cbv beta in Hlen.
    destruct (nth_error row i) as [vi|] eqn:Hvi;
      [|apply nth_error_None in Hvi; lia].
    destruct (nth_error row j) as [vj|] eqn:Hvj;
      [|apply nth_error_None in Hvj; lia].
    exists vi, vj.
    unfold seqlen_of in Hi, Hj.
    apply Nat.ltb_lt in Hi, Hj.
    rewrite Hi, Hj.
    repeat split.
  - apply nth_error_None in Hrow; lia.
Qed.

(** * Properties of the specification *)

(** ** [get_mask] *)

(** C6. The pair mask is symmetric: [mask[b, i, j]] and [mask[b, j, i]]
    are the same entry value, for every example and index pair (both are
    absent when an index is out of range).  This holds for every
    minimum residue distance, in particular for those that are [>= 0]. *)
Theorem get_mask_symmetric (self : ContactMapTask) (inputs : Inputs) (b i j : nat) :
  at3 (get_mask self inputs) b i j = at3 (get_mask self inputs) b j i.
Proof.
  rewrite !get_mask_at.
  destruct (nth_error (valid_mask inputs) b) as [row|]; [|reflexivity].
  destruct (nth_error row i) as [vi|], (nth_error row j) as [vj|]; try reflexivity.
  rewrite (andb_comm (Nat.ltb i _)), (andb_comm vi vj).
  replace (Z.abs (Z.of_nat i - Z.of_nat j)) with (Z.abs (Z.of_nat j - Z.of_nat i)) by lia.
  reflexivity.
Qed.

(** C7. The diagonal of the mask: at every position [i] of an example [b]
    of the batch, [mask[b, i, i]] is false when the minimum residue
    distance is [>= 1], and is the validity of position [i] when the
    minimum residue distance is [<= 0]. *)
Theorem get_mask_diagonal (self : ContactMapTask) (inputs : Inputs) (b i : nat) (v : bool) :
  at2 (valid_mask inputs) b i = Some v ->
  (i < seqlen_of inputs)%nat ->
  ((1 <= _min_residue_distance self)%Z -> at3 (get_mask self inputs) b i i = Some false)
  /\ ((_min_residue_distance self <= 0)%Z -> at3 (get_mask self inputs) b i i = Some v).
Proof.
  unfold at2, seqlen_of.
  intros Hv Hi.
  rewrite get_mask_at.
  destruct (nth_error (valid_mask inputs) b) as [row|]; [|discriminate].
  rewrite Hv.
  apply Nat.ltb_lt in Hi.
  rewrite Hi; simpl.
  rewrite Z.sub_diag; simpl.
  split; intros Hd.
  - replace (_min_residue_distance self <=? 0)%Z with false by (symmetry; apply Z.leb_gt; lia).
    rewrite andb_false_r.
    reflexivity.
  - replace (_min_residue_distance self <=? 0)%Z with true by (symmetry; apply Z.leb_le; lia).
    rewrite andb_true_r, andb_diag.
    reflexivity.
Qed.

Lemma get_mask_diagonal_witness :
  at3 (get_mask (__init__ (Some 2%Z)) batch4) 0 1 1 = Some false
  /\ at3 (get_mask (__init__ (Some 0%Z)) batch4) 0 1 1 = Some true.
Proof.
  split.
  - apply (get_mask_diagonal (__init__ (Some 2%Z)) batch4 0%nat 1%nat true).
    + reflexivity.
    + vm_compute; lia.
    + simpl; lia.
  - apply (get_mask_diagonal (__init__ (Some 0%Z)) batch4 0%nat 1%nat true).
    + reflexivity.
    + vm_compute; lia.
    + simpl; lia.
Defined.

(** C8. Padding exclusion: when [valid_mask[b, i]] is false, no pair
    involving [i] is in the mask, and [mask[b, i, j]] and [mask[b, j, i]]
    are false for every position [j] of the example. *)
Theorem get_mask_padding (self : ContactMapTask) (inputs : Inputs) (b i j : nat) :
  at2 (valid_mask inputs) b i = Some false ->
  (at3 (get_mask self inputs) b i j <> Some true
   /\ at3 (get_mask self inputs) b j i <> Some true)
  /\ ((i < seqlen_of inputs)%nat -> (j < seqlen_of inputs)%nat ->
      at2 (valid_mask inputs) b j <> None ->
      at3 (get_mask self inputs) b i j = Some false
      /\ at3 (get_mask self inputs) b j i = Some false).
Proof.
  unfold at2, seqlen_of.
  intros Hv.
  rewrite !get_mask_at.
  destruct (nth_error (valid_mask inputs) b) as [row|]; [|discriminate].
  rewrite Hv.
  destruct (nth_error row j) as [vj|].
  - rewrite andb_false_r; simpl.
    split.
    + split.
      * destruct (_ && _)%bool; discriminate.
      * destruct (_ && _)%bool; discriminate.
    + intros Hi Hj _.
      apply Nat.ltb_lt in Hi, Hj.
      rewrite Hi, Hj; simpl.
      split; reflexivity.
  - split; [split; discriminate|].
    intros _ _ Hsome; contradiction.
Qed.

Lemma get_mask_padding_witness :
  at3 (get_mask (__init__ None) batch4_padded) 0 3 0 = Some false
  /\ at3 (get_mask (__init__ None) batch4_padded) 0 0 3 = Some false.
Proof.
  apply (get_mask_padding (__init__ None) batch4_padded 0%nat 3%nat 0%nat).
  - reflexivity.
  - vm_compute; lia.
  - vm_compute; lia.
  - discriminate.
Defined.

(** ** [get_data] *)

(** C5, counterexample.  On the equal-length arrays of the scenario the
    boolean index [bounds_array > 1000] has three entries, the last one
    true, while the view [batch_sizes_array[:-1]] has two: the assignment
    raises [IndexError] and no batch sizes are returned. *)
Lemma get_data_equal_length_raises :
  get_data_arrays ([500; 1500; 1000000000]%Z, [400; 100; 64]%Z) = Raise IndexError
  /\ get_data_arrays ([500; 1500; 1000000000]%Z, [400; 100; 64]%Z)
     <> Ok ([500; 1500; 1000000000]%Z, [5; 0; 0]%Z).
Proof.
  split; [reflexivity | discriminate].
Qed.

(** C5, amended.  With one boundary fewer than batch sizes, the rescaling
    of boundaries [500, 1500] and nominal batch sizes [400, 100, 64]
    yields [5, 0, 0]; in general every batch size but the last becomes 0
    when its boundary exceeds 1000 and otherwise [floor (sqrt size / 4)]
    clamped to 1 when not positive, and the last becomes 0. *)
Theorem get_data_rescale :
  get_data_arrays ([500; 1500]%Z, [400; 100; 64]%Z) = Ok ([500; 1500]%Z, [5; 0; 0]%Z)
  /\ forall (bounds batch_sizes : list Z),
       length batch_sizes = S (length bounds) ->
       get_data_arrays (bounds, batch_sizes) =
       Ok (bounds,
           map2 (fun size boundary =>
                   if (1000 <? boundary)%Z then 0%Z
                   else if (Np.sqrt_div4_int32 size <=? 0)%Z then 1%Z
                        else Np.sqrt_div4_int32 size)
                (removelast batch_sizes) bounds
           ++ [0%Z]).
Proof.
  split; [reflexivity|].
  intros bounds batch_sizes Hlen.
  unfold get_data_arrays, Np.setitem_bool_init, Np.setitem_bool, Np.clamp_nonpositive.
  rewrite !removelast_map, !length_map, length_removelast, Hlen.
  simpl Nat.sub.
  rewrite Nat.sub_0_r, Nat.eqb_refl.
  simpl bind.
  unfold Np.setitem_last.
  destruct (_ ++ _) as [|x xs] eqn:Happ.
  - apply app_eq_nil in Happ as [_ Hskip].
    apply (f_equal (@length Z)) in Hskip.
    rewrite length_skipn, !length_map, Hlen in Hskip.
    cbn [length] in Hskip; lia.
  - rewrite <- Happ.
    assert (Hlast : exists y, skipn (length bounds)
                                (map (fun x => if (x <=? 0)%Z then 1%Z else x)
                                   (map Np.sqrt_div4_int32 batch_sizes)) = [y]).
    { match goal with |- exists y, ?l = _ => assert (Hl : length l = 1%nat) end.
      { rewrite length_skipn, !length_map, Hlen. lia. }
      match type of Hl with length ?l = _ => destruct l as [|y [|z l']] end;
        simpl in Hl; try discriminate.
      exists y; reflexivity. }
    destruct Hlast as [y Hy].
    rewrite Hy, removelast_snoc.
    simpl bind.
    rewrite !map2_map_l, map2_map_r.
    reflexivity.
Qed.

Lemma get_data_rescale_witness :
  get_data_arrays ([500; 2000; 3000]%Z, [400; 100; 64; 9]%Z)
  = Ok ([500; 2000; 3000]%Z, [5; 0; 0; 0]%Z).
Proof.
  rewrite (proj2 get_data_rescale [500; 2000; 3000]%Z [400; 100; 64; 9]%Z).
  - reflexivity.
  - reflexivity.
Defined.

(** ** File discovery *)

(** C9. [get_train_files] raises [FileNotFoundError] with the glob
    pattern when nothing matches it and returns the matches otherwise;
    [get_valid_files] raises [FileNotFoundError] with the path of the
    validation file when it does not exist and returns that single path
    otherwise. *)
Theorem get_files_not_found (fs : FileSystem) (data_folder : string) :
  let train_file_pattern :=
    OsPath.join data_folder ["proteinnet"; "contact_map_train*.tfrecord"]%string in
  let valid_file :=
    OsPath.join data_folder ["proteinnet"; "contact_map_valid.tfrecord"]%string in
  (glob fs train_file_pattern = [] ->
   get_train_files fs data_folder = Raise (FileNotFoundError train_file_pattern))
  /\ (glob fs train_file_pattern <> [] ->
      get_train_files fs data_folder = Ok (glob fs train_file_pattern))
  /\ (path_exists fs valid_file = false ->
      get_valid_files fs data_folder = Raise (FileNotFoundError valid_file))
  /\ (path_exists fs valid_file = true ->
      get_valid_files fs data_folder = Ok [valid_file]).
Proof.
  intros train_file_pattern valid_file.
  unfold get_train_files, get_valid_files.
  fold train_file_pattern valid_file.
  repeat split.
  - intros ->; reflexivity.
  - intros Hne.
    destruct (glob fs train_file_pattern); [contradiction | reflexivity].
  - intros ->; reflexivity.
  - intros ->; reflexivity.
Qed.

Lemma get_files_not_found_witness :
  (get_train_files fs_empty "data"
   = Raise (FileNotFoundError "data/proteinnet/contact_map_train*.tfrecord")
   /\ get_valid_files fs_empty "data"
      = Raise (FileNotFoundError "data/proteinnet/contact_map_valid.tfrecord"))
  /\ (get_train_files fs_data "data"
      = Ok ["data/proteinnet/contact_map_train_0.tfrecord";
            "data/proteinnet/contact_map_train_1.tfrecord"]%string
      /\ get_valid_files fs_data "data"
         = Ok ["data/proteinnet/contact_map_valid.tfrecord"%string]).
Proof.
  pose proof (get_files_not_found fs_empty "data") as (He1 & _ & He3 & _).
  pose proof (get_files_not_found fs_data "data") as (_ & Hd2 & _ & Hd4).
  split; split.
  - apply He1; reflexivity.
  - apply He3; reflexivity.
  - apply Hd2; discriminate.
  - apply Hd4; reflexivity.
Defined.

(** ** [loss_function] *)

(** C1. On every batch [loss_function] returns a loss, and that loss is
    the weighted mean of the per-pair cross-entropies between label and
    logit under the [0/1] mask weights: the weighted sum divided by the
    total mask weight (and 0 when the total weight is 0, as [div_no_nan]
    and division in [Q] both give).  Pairs of weight 0 add nothing: the
    weighted sum is the sum of the cross-entropies of the unmasked pairs. *)
Theorem loss_is_weighted_mean (xent : Q -> Q -> Q) (min_residue_distance : option Z)
    (inputs : Inputs) (outputs : Outputs) :
  wf_batch inputs outputs = true ->
  let weights := Tf.cast_bool (flat_mask (__init__ min_residue_distance) inputs) in
  let ce := map2 (map2 xent) (Tf.cast_int (flat_label inputs)) (flat_pred outputs) in
  exists (loss : Q) (metrics : list (string * Q)),
    loss_function xent (__init__ min_residue_distance) inputs outputs = Ok (loss, metrics)
    /\ loss == weighted_mean ce weights
    /\ Tf.reduce_sum (map2 (map2 Qmult) ce weights)
       == Tf.reduce_sum
            (map2 (map2 (fun c (m : bool) => if m then c else 0)) ce
               (flat_mask (__init__ min_residue_distance) inputs))
    /\ (Tf.reduce_sum weights == 0 -> loss == 0).
Proof.
  intros Hwf weights ce.
  destruct (loss_function_locals_wf xent min_residue_distance inputs outputs Hwf)
    as (r & Hr & _ & _ & _ & Hloss & _).
  exists (l_loss r), [("ACC"%string, l_accuracy r)].
  split; [|split; [|split]].
  - unfold loss_function.
    rewrite Hr; reflexivity.
  - rewrite Hloss, num_present_cast_bool.
    apply div_no_nan_Qdiv.
  - apply reduce_sum_weighted_cast_bool.
  - intros Hzero.
    rewrite Hloss, num_present_cast_bool, div_no_nan_Qdiv.
    fold weights.
    unfold Qdiv.
    rewrite Hzero.
    unfold Qinv; simpl.
    ring.
Qed.

Lemma loss_is_weighted_mean_witness :
  exists (loss : Q) (metrics : list (string * Q)),
    loss_function xent_sq (__init__ None) batch20 outputs20 = Ok (loss, metrics)
    /\ loss == weighted_mean
                 (map2 (map2 xent_sq) (Tf.cast_int (flat_label batch20)) (flat_pred outputs20))
                 (Tf.cast_bool (flat_mask (__init__ None) batch20)).
Proof.
  destruct (loss_is_weighted_mean xent_sq None batch20 outputs20)
    as (loss & metrics & Hrun & Hmean & _).
  - vm_compute; reflexivity.
  - exists loss, metrics.
    split; [exact Hrun | exact Hmean].
Defined.

(** C2. On every batch the ranking selects, for each example, exactly
    [k] distinct pairs of the flattened [L * L] pair space, where [k] is
    the largest [protein_length] of the batch integer-divided by 5,
    whatever the example's own length; for [protein_length = [10, 20]]
    that is 4 pairs for each of the two examples. *)
Theorem top_l_over_5_count (xent : Q -> Q -> Q) (min_residue_distance : option Z)
    (inputs : Inputs) (outputs : Outputs) :
  wf_batch inputs outputs = true ->
  exists r : Locals,
    loss_function_locals xent (__init__ min_residue_distance) inputs outputs = Ok r
    /\ In (l_max_prot_len r) (protein_length inputs)
    /\ Forall (fun n => (n <= l_max_prot_len r)%Z) (protein_length inputs)
    /\ length (l_indices r) = length (protein_length inputs)
    /\ Forall (fun idx =>
                 length idx = Z.to_nat (l_max_prot_len r / 5)
                 /\ NoDup idx
                 /\ Forall (fun c => (c < seqlen_of inputs * seqlen_of inputs)%nat) idx)
         (l_indices r)
    /\ (protein_length inputs = [10; 20]%Z ->
        length (l_indices r) = 2%nat
        /\ Forall (fun idx => length idx = 4%nat /\ NoDup idx) (l_indices r)).
Proof.
  intros Hwf.
  destruct (loss_function_locals_wf xent min_residue_distance inputs outputs Hwf)
    as (r & Hr & _ & _ & _ & _ & Hmax & Hidx & _).
  pose proof (wf_batch_k _ _ Hwf) as [_ Hkm].
  pose proof (wf_batch_inv _ _ Hwf) as (HB & _ & Hv & _ & Ho & Hl).
  assert (Hscores : has_shape2 (batch_size_of inputs) (seqlen_of inputs * seqlen_of inputs)
                      (ranking_scores (__init__ min_residue_distance) inputs outputs) = true).
  { apply has_shape2_map2.
    - apply has_shape3_map_concat, has_shape3_squeezed, Ho.
    - apply has_shape2_map, has_shape3_map_concat, has_shape3_get_mask, Hv. }
  apply has_shape2_iff in Hscores as [Hrows Hcols].
  assert (Hlen : length (l_indices r) = length (protein_length inputs)).
  { rewrite Hidx, !length_map; exact Hrows. }
  assert (Hall : Forall (fun idx =>
                           length idx = Z.to_nat (l_max_prot_len r / 5)
                           /\ NoDup idx
                           /\ Forall (fun c => (c < seqlen_of inputs * seqlen_of inputs)%nat)
                                idx)
                   (l_indices r)).
  { rewrite Hidx, Hmax, map_map.
    apply Forall_map.
    eapply Forall_impl; [|exact Hcols].
    intros row Hrow; simpl in Hrow |- *.
    split; [|split].
    - rewrite length_map.
      apply length_top_k_row.
      unfold top_l_over_5_k in Hkm; lia.
    - apply top_k_row_NoDup.
    - apply Forall_forall.
      intros c Hc.
      apply in_map_iff in Hc as [[c' v] [<- Hin]]; simpl.
      apply top_k_row_In in Hin.
      rewrite <- Hrow.
      apply nth_error_Some; congruence. }
  exists r.
  split; [exact Hr|].
  split; [|split; [|split; [exact Hlen | split; [exact Hall|]]]].
  - rewrite Hmax.
    apply reduce_max_In.
    + unfold batch_size_of in HB.
      destruct (protein_length inputs); [simpl in HB; lia | discriminate].
    + eapply Forall_impl; [|exact Hl].
      intros n Hn; simpl in Hn; unfold Tf.int32_min; lia.
  - rewrite Hmax.
    apply Forall_forall.
    intros n Hn; apply reduce_max_ge, Hn.
  - intros Hpl.
    rewrite Hmax, Hpl in Hall.
    rewrite Hpl in Hlen.
    split; [exact Hlen|].
    eapply Forall_impl; [|exact Hall].
    intros idx (Hk & Hnd & _).
    split; [exact Hk | exact Hnd].
Qed.

Lemma top_l_over_5_count_witness :
  exists r : Locals,
    loss_function_locals xent_sq (__init__ None) batch20 outputs20 = Ok r
    /\ length (l_indices r) = 2%nat
    /\ Forall (fun idx => length idx = 4%nat /\ NoDup idx) (l_indices r).
Proof.
  destruct (top_l_over_5_count xent_sq None batch20 outputs20)
    as (r & Hrun & _ & _ & _ & _ & Hscenario).
  - vm_compute; reflexivity.
  - exists r.
    split; [exact Hrun|].
    apply Hscenario; reflexivity.
Defined.

(** C3, counterexample.  One protein of length 5, minimum residue
    distance 1, so [k = 1] and the 20 off-diagonal pairs are unmasked.
    The unmasked logits are -2000 and the masked diagonal logits are 0:
    the diagonal scores 0 - 1000 = -1000, above -2000, and the single
    selected index is 0, the masked pair (0, 0). *)
Lemma top_k_selects_masked_pair :
  wf_batch batch5 outputs5 = true
  /\ top_l_over_5_k batch5 = 1%nat
  /\ option_map count_unmasked (nth_error (flat_mask (__init__ (Some 1%Z)) batch5) 0)
     = Some 20%nat
  /\ at3 (get_mask (__init__ (Some 1%Z)) batch5) 0 0 0 = Some false
  /\ exists r : Locals,
       loss_function_locals xent_sq (__init__ (Some 1%Z)) batch5 outputs5 = Ok r
       /\ l_indices r = [[0%nat]]
       /\ ~ Forall (fun c => at2 (flat_mask (__init__ (Some 1%Z)) batch5) 0 c = Some true)
             (nth 0 (l_indices r) []).
Proof.
  split; [vm_compute; reflexivity|].
  split; [vm_compute; reflexivity|].
  split; [vm_compute; reflexivity|].
  split; [vm_compute; reflexivity|].
  eexists.
  split; [vm_compute; reflexivity|].
  split; [reflexivity|].
  cbn [l_indices nth].
  intros Hall.
  inversion Hall as [|c idx Hc _]; subst.
  vm_compute in Hc.
  discriminate.
Qed.

(** C3, amended.  On every batch and for every example with at least [k]
    unmasked pairs, if every masked pair's logit exceeds every unmasked
    pair's logit of that example by less than 1000, then the [k] selected
    indices of the example are all unmasked pairs. *)
Theorem top_k_excludes_masked (xent : Q -> Q -> Q) (min_residue_distance : option Z)
    (inputs : Inputs) (outputs : Outputs) :
  wf_batch inputs outputs = true ->
  exists r : Locals,
    loss_function_locals xent (__init__ min_residue_distance) inputs outputs = Ok r
    /\ forall (b : nat) (mrow : list bool) (prow : list Q),
         nth_error (flat_mask (__init__ min_residue_distance) inputs) b = Some mrow ->
         nth_error (flat_pred outputs) b = Some prow ->
         (top_l_over_5_k inputs <= count_unmasked mrow)%nat ->
         (forall (i j : nat) (p q : Q),
            nth_error mrow i = Some true -> nth_error mrow j = Some false ->
            nth_error prow i = Some p -> nth_error prow j = Some q ->
            q - p < 1000) ->
         exists idx : list nat,
           nth_error (l_indices r) b = Some idx
           /\ length idx = top_l_over_5_k inputs
           /\ Forall (fun c => nth_error mrow c = Some true) idx.
Proof.
  intros Hwf.
  destruct (loss_function_locals_wf xent min_residue_distance inputs outputs Hwf)
    as (r & Hr & _ & _ & _ & _ & _ & Hidx & _).
  pose proof (wf_batch_k _ _ Hwf) as [_ Hkm].
  pose proof (wf_batch_inv _ _ Hwf) as (_ & _ & Hv & _ & Ho & _).
  assert (Hpred : has_shape2 (batch_size_of inputs) (seqlen_of inputs * seqlen_of inputs)
                    (flat_pred outputs) = true).
  { apply has_shape3_map_concat, has_shape3_squeezed, Ho. }
  assert (Hmask : has_shape2 (batch_size_of inputs) (seqlen_of inputs * seqlen_of inputs)
                    (flat_mask (__init__ min_residue_distance) inputs) = true).
  { apply has_shape3_map_concat, has_shape3_get_mask, Hv. }
  apply has_shape2_iff in Hpred as [_ Hpred], Hmask as [_ Hmask].
  rewrite Forall_forall in Hpred, Hmask.
  exists r.
  split; [exact Hr|].
  intros b mrow prow Hmrow Hprow Hcount Hspread.
  pose proof (Hpred prow (nth_error_In _ _ Hprow)) as Hlp.
  pose proof (Hmask mrow (nth_error_In _ _ Hmrow)) as Hlm.
  cbv beta in Hlp, Hlm.
  set (srow := map2 (fun p m => p - 1000 * (1 - m)) prow
                    (map (fun m : bool => if m then 1 else 0) mrow)).
  assert (Hsrow : nth_error (ranking_scores (__init__ min_residue_distance) inputs outputs) b
                  = Some srow).
  { unfold ranking_scores, Tf.cast_bool.
    rewrite nth_error_map2, nth_error_map, Hprow, Hmrow.
    reflexivity. }
  assert (Hls : length srow = length mrow).
  { unfold srow.
    rewrite length_map2, length_map; lia. }
  exists (map fst (Tf.top_k_row (top_l_over_5_k inputs) srow)).
  split; [|split].
  - rewrite Hidx, map_map, nth_error_map, Hsrow.
    reflexivity.
  - rewrite length_map.
    apply length_top_k_row; lia.
  - set (g := fun x : nat * Q =>
                match nth_error mrow (fst x - 0) with
                | Some w => (fun m : bool => m) w
                | None => false
                end).
    assert (Hsel : Forall (fun x => g x = true) (Tf.top_k_row (top_l_over_5_k inputs) srow)).
    { apply select_preferred.
      - intros [i sx] [j sy] Hx Hy Hgx Hgy.
        apply In_combine_seq in Hx as [_ Hx], Hy as [_ Hy].
        unfold g in Hgx, Hgy; simpl in Hgx, Hgy, Hx, Hy |- *.
        rewrite Nat.sub_0_r in *.
        unfold srow in Hx, Hy.
        rewrite nth_error_map2, nth_error_map in Hx, Hy.
        destruct (nth_error prow i) as [p|] eqn:Hp; [|discriminate].
        destruct (nth_error prow j) as [q|] eqn:Hq; [|discriminate].
        destruct (nth_error mrow i) as [mi|] eqn:Hmi; [|discriminate].
        destruct (nth_error mrow j) as [mj|] eqn:Hmj; [|discriminate].
        subst mi mj; simpl in Hx, Hy.
        injection Hx as <-.
        injection Hy as <-.
        pose proof (Hspread i j p q Hmi Hmj Hp Hq).
        lra.
      - pose proof (length_filter_combine_seq (fun m : bool => m) mrow srow 0 (eq_sym Hls))
          as Hc.
        unfold g.
        cbv beta in Hc |- *.
        rewrite Hc.
        exact Hcount. }
    apply Forall_map.
    eapply Forall_impl; [|exact Hsel].
    intros [c v] Hg.
    unfold g in Hg; simpl in Hg |- *.
    rewrite Nat.sub_0_r in Hg.
    destruct (nth_error mrow c) as [[|]|]; try discriminate.
    reflexivity.
Qed.

Lemma top_k_excludes_masked_witness :
  exists (r : Locals) (idx : list nat),
    loss_function_locals xent_sq (__init__ None) batch20 outputs20 = Ok r
    /\ nth_error (l_indices r) 1 = Some idx
    /\ length idx = 4%nat
    /\ Forall (fun c => at2 (flat_mask (__init__ None) batch20) 1 c = Some true) idx.
Proof.
  destruct (top_k_excludes_masked xent_sq None batch20 outputs20)
    as (r & Hrun & Hsel); [vm_compute; reflexivity|].
  pose (mrow := nth 1 (flat_mask (__init__ None) batch20) []).
  pose (prow := nth 1 (flat_pred outputs20) []).
  destruct (Hsel 1%nat mrow prow) as (idx & Hidx & Hlen & Hall).
  - vm_compute; reflexivity.
  - vm_compute; reflexivity.
  - vm_compute; lia.
  - intros i j p q _ _ Hp Hq.
    assert (Hbounds : Forall (fun p => 0 <= p <= 38) prow)
      by (apply Forall_Qbounds_of_forallb; vm_compute; reflexivity).
    rewrite Forall_forall in Hbounds.
    pose proof (Hbounds p (nth_error_In _ _ Hp)).
    pose proof (Hbounds q (nth_error_In _ _ Hq)).
    lra.
  - exists r, idx.
    split; [exact Hrun|].
    split; [exact Hidx|].
    split; [exact Hlen | exact Hall].
Defined.

(** C4. On every batch with binary contact-map labels, [loss_function]
    returns under the key "ACC" the sum over the selected positions of
    label times mask weight, divided by the sum of the selected mask
    weights plus 1e-8; the divisor is positive, the accuracy lies in
    [[0, 1]], and it is 0 when no selected pair is unmasked. *)
Theorem accuracy_bounds (xent : Q -> Q -> Q) (min_residue_distance : option Z)
    (inputs : Inputs) (outputs : Outputs) :
  wf_batch inputs outputs = true ->
  binary_labels inputs = true ->
  exists (loss accuracy : Q) (r : Locals),
    loss_function xent (__init__ min_residue_distance) inputs outputs
    = Ok (loss, [("ACC"%string, accuracy)])
    /\ loss_function_locals xent (__init__ min_residue_distance) inputs outputs = Ok r
    /\ l_l5_labels r =
         Tf.cast_int (map2 (fun prow idx => map (fun c => nth c prow 0%Z) idx)
                        (flat_label inputs) (l_indices r))
    /\ l_l5_mask r =
         map2 (fun prow idx => map (fun c => nth c prow 0) idx)
           (Tf.cast_bool (flat_mask (__init__ min_residue_distance) inputs)) (l_indices r)
    /\ accuracy =
         Tf.reduce_sum (map2 (map2 Qmult) (l_l5_labels r) (l_l5_mask r))
         / (Tf.reduce_sum (l_l5_mask r) + (1 # 100000000))
    /\ 0 < Tf.reduce_sum (l_l5_mask r) + (1 # 100000000)
    /\ 0 <= accuracy <= 1
    /\ (Tf.reduce_sum (l_l5_mask r) == 0 -> accuracy == 0).
Proof.
  intros Hwf Hbin.
  destruct (loss_function_locals_wf xent min_residue_distance inputs outputs Hwf)
    as (r & Hr & _ & _ & _ & _ & _ & _ & Hl5l & Hl5m & Hacc).
  assert (Hlabels : Forall (Forall (fun l => 0 <= l <= 1)) (l_l5_labels r)).
  { rewrite Hl5l.
    apply Forall_cast_int_binary, Forall_gather_rows.
    - left; reflexivity.
    - apply Forall_flat_label_binary, Hbin. }
  assert (Hmask : Forall (Forall (fun m => 0 <= m <= 1)) (l_l5_mask r)).
  { rewrite Hl5m.
    apply Forall_gather_rows; [lra | apply Forall_cast_bool]. }
  assert (Hmask0 : Forall (Forall (fun m => 0 <= m)) (l_l5_mask r)).
  { eapply Forall_impl; [|exact Hmask].
    intros row Hrow.
    eapply Forall_impl; [|exact Hrow].
    intros m Hm; simpl in Hm; lra. }
  pose proof (reduce_sum_weighted_bounds _ _ Hlabels Hmask0) as [Hnum0 Hnum1].
  pose proof (reduce_sum_nonneg _ Hmask0) as Hden0.
  unfold epsilon in Hacc.
  set (num := Tf.reduce_sum (map2 (map2 Qmult) (l_l5_labels r) (l_l5_mask r))) in *.
  set (total := Tf.reduce_sum (l_l5_mask r)) in *.
  assert (Hden : 0 < total + (1 # 100000000)) by lra.
  exists (l_loss r), (l_accuracy r), r.
  split; [unfold loss_function; rewrite Hr; reflexivity|].
  split; [exact Hr|].
  split; [exact Hl5l|].
  split; [exact Hl5m|].
  split; [exact Hacc|].
  split; [exact Hden|].
  rewrite Hacc.
  split; [split|].
  - apply Qle_shift_div_l; [exact Hden | lra].
  - apply Qle_shift_div_r; [exact Hden | lra].
  - intros Hzero.
    fold total in Hzero.
    assert (Hnum : num == 0) by lra.
    unfold Qdiv.
    rewrite Hnum.
    ring.
Qed.

Lemma accuracy_bounds_witness :
  exists (loss accuracy : Q),
    loss_function xent_sq (__init__ None) batch20 outputs20
    = Ok (loss, [("ACC"%string, accuracy)])
    /\ 0 <= accuracy <= 1.
Proof.
  destruct (accuracy_bounds xent_sq None batch20 outputs20)
    as (loss & accuracy & r & Hrun & _ & _ & _ & _ & _ & Hbounds & _).
  - vm_compute; reflexivity.
  - vm_compute; reflexivity.
  - exists loss, accuracy.
    split; [exact Hrun | exact Hbounds].
Defined.

(** * Further properties of the code *)

(** ** [get_mask] *)

(** X1. On a batch whose [valid_mask] has shape [n, L], every entry
    [(b, i, j)] of the mask within the batch is defined, and it is true
    exactly when positions [i] and [j] of example [b] are both valid and
    at least the minimum residue distance apart. *)
Theorem get_mask_true_iff (self : ContactMapTask) (inputs : Inputs) (n b i j : nat) :
  has_shape2 n (seqlen_of inputs) (valid_mask inputs) = true ->
  (b < n)%nat -> (i < seqlen_of inputs)%nat -> (j < seqlen_of inputs)%nat ->
  exists m : bool,
    at3 (get_mask self inputs) b i j = Some m
    /\ (m = true <->
        at2 (valid_mask inputs) b i = Some true
        /\ at2 (valid_mask inputs) b j = Some true
        /\ (_min_residue_distance self <= Z.abs (Z.of_nat i - Z.of_nat j))%Z).
Proof.
  intros Hv Hb Hi Hj.
  destruct (get_mask_at_wf self inputs n b i j Hv Hb Hi Hj) as (vi & vj & Hvi & Hvj & Hat).
  eexists.
  split; [exact Hat|].
  rewrite Hvi, Hvj, !andb_true_iff, Z.leb_le.
  replace (Z.abs (Z.of_nat j - Z.of_nat i)) with (Z.abs (Z.of_nat i - Z.of_nat j)) by lia.
  split.
  - intros [[-> ->] Hd].
    repeat split; assumption.
  - intros (Hi' & Hj' & Hd).
    injection Hi' as ->.
    injection Hj' as ->.
    repeat split; assumption.
Qed.

Lemma get_mask_true_iff_witness :
  exists m : bool,
    at3 (get_mask (__init__ (Some 2%Z)) batch4_padded) 0 0 2 = Some m
    /\ (m = true <->
        at2 (valid_mask batch4_padded) 0 0 = Some true
        /\ at2 (valid_mask batch4_padded) 0 2 = Some true
        /\ (2 <= Z.abs (Z.of_nat 0 - Z.of_nat 2))%Z).
Proof.
  apply (get_mask_true_iff (__init__ (Some 2%Z)) batch4_padded 1 0 0 2).
  - vm_compute; reflexivity.
  - lia.
  - vm_compute; lia.
  - vm_compute; lia.
Defined.

(** X2. On a batch whose [valid_mask] has shape [n, L], where [L] is the
    padded length of [primary], the mask has shape [n, L, L]. *)
Theorem get_mask_shape (self : ContactMapTask) (inputs : Inputs) (n : nat) :
  has_shape2 n (seqlen_of inputs) (valid_mask inputs) = true ->
  has_shape3 n (seqlen_of inputs) (seqlen_of inputs) (get_mask self inputs) = true.
Proof.
  apply has_shape3_get_mask.
Qed.

Lemma get_mask_shape_witness :
  has_shape3 2 20 20 (get_mask (__init__ None) batch20) = true.
Proof.
  apply (get_mask_shape (__init__ None) batch20 2).
  vm_compute; reflexivity.
Defined.

(** X3. Raising the minimum residue distance only removes pairs: a pair
    in the mask of a task is in the mask of every task with a smaller or
    equal minimum residue distance. *)
Theorem get_mask_antitone (self self' : ContactMapTask) (inputs : Inputs) (b i j : nat) :
  (_min_residue_distance self <= _min_residue_distance self')%Z ->
  at3 (get_mask self' inputs) b i j = Some true ->
  at3 (get_mask self inputs) b i j = Some true.
Proof.
  intros Hd.
  rewrite !get_mask_at.
  destruct (nth_error (valid_mask inputs) b) as [row|]; [|discriminate].
  destruct (nth_error row i) as [vi|], (nth_error row j) as [vj|]; try discriminate.
  destruct (_ && _)%bool; [|discriminate].
  intros Hm.
  injection Hm as Hm.
  apply andb_true_iff in Hm as [Hvalid Hfar].
  apply Z.leb_le in Hfar.
  rewrite Hvalid; simpl.
  replace (_min_residue_distance self <=? Z.abs (Z.of_nat j - Z.of_nat i))%Z with true
    by (symmetry; apply Z.leb_le; lia).
  reflexivity.
Qed.

Lemma get_mask_antitone_witness :
  at3 (get_mask (__init__ (Some 2%Z)) batch20) 1 0 7 = Some true.
Proof.
  apply (get_mask_antitone (__init__ (Some 2%Z)) (__init__ None) batch20 1 0 7).
  - simpl; lia.
  - vm_compute; reflexivity.
Defined.

(** ** [loss_function] on degenerate batches *)

Lemma sum_zero (l : list Q) :
  Forall (fun q => q == 0) l -> Tf.sum l == 0.
Proof.
  induction 1 as [|q l Hq _ IH]; simpl; [reflexivity|].
  rewrite Hq, IH.
  ring.
Qed.

Lemma reduce_sum_zero (t : list (list Q)) :
  Forall (Forall (fun q => q == 0)) t -> Tf.reduce_sum t == 0.
Proof.
  intros Ht.
  unfold Tf.reduce_sum.
  apply sum_zero, Forall_map.
  eapply Forall_impl; [|exact Ht].
  intros row Hrow; apply sum_zero, Hrow.
Qed.

Lemma Forall_map2_mult_zero (ls ms : list (list Q)) :
  Forall (Forall (fun q => q == 0)) ms ->
  Forall (Forall (fun q => q == 0)) (map2 (map2 Qmult) ls ms).
Proof.
  intros Hms.
  revert ls.
  induction Hms as [|m ms Hm _ IH]; intros [|l ls]; simpl; try constructor.
  - clear IH.
    revert l.
    induction Hm as [|q m Hq _ IHm]; intros [|x l]; simpl; try constructor.
    + rewrite Hq; ring.
    + apply IHm.
  - apply IH.
Qed.

(** A mask without a true entry has only false entries once flattened. *)
Lemma flat_mask_all_false (self : ContactMapTask) (inputs : Inputs) :
  (forall b i j : nat, at3 (get_mask self inputs) b i j <> Some true) ->
  Forall (Forall (fun m : bool => m = false)) (flat_mask self inputs).
Proof.
  intros Hnone.
  unfold flat_mask.
  apply Forall_map, Forall_forall.
  intros x Hx.
  apply Forall_forall.
  intros m Hm.
  apply in_concat in Hm as [row [Hrow Hm]].
  apply In_nth_error in Hx as [b Hb], Hrow as [i Hi], Hm as [j Hj].
  specialize (Hnone b i j).
  unfold at3 in Hnone.
  rewrite Hb, Hi, Hj in Hnone.
  destruct m; [contradiction Hnone; reflexivity | reflexivity].
Qed.

Lemma Forall_cast_bool_zero (t : list (list bool)) :
  Forall (Forall (fun m : bool => m = false)) t ->
  Forall (Forall (fun q => q == 0)) (Tf.cast_bool t).
Proof.
  intros Ht.
  unfold Tf.cast_bool.
  apply Forall_map.
  eapply Forall_impl; [|exact Ht].
  intros row Hrow.
  apply Forall_map.
  eapply Forall_impl; [|exact Hrow].
  intros m ->; reflexivity.
Qed.

(** With no pair in the mask the loss is 0 and so is the accuracy. *)
Lemma loss_function_empty_mask (xent : Q -> Q -> Q) (min_residue_distance : option Z)
    (inputs : Inputs) (outputs : Outputs) :
  wf_batch inputs outputs = true ->
  (forall b i j : nat,
     at3 (get_mask (__init__ min_residue_distance) inputs) b i j <> Some true) ->
  exists accuracy : Q,
    loss_function xent (__init__ min_residue_distance) inputs outputs
    = Ok (0, [("ACC"%string, accuracy)])
    /\ accuracy == 0.
Proof.
  intros Hwf Hnone.
  destruct (loss_function_locals_wf xent min_residue_distance inputs outputs Hwf)
    as (r & Hr & _ & _ & _ & Hloss & _ & _ & _ & Hl5m & Hacc).
  pose proof (Forall_cast_bool_zero _ (flat_mask_all_false _ _ Hnone)) as Hzero.
  assert (Hpresent : Qeq_bool
                       (Tf.num_present
                          (Tf.cast_bool (flat_mask (__init__ min_residue_distance) inputs)))
                       0 = true).
  { apply Qeq_bool_iff.
    rewrite num_present_cast_bool.
    apply reduce_sum_zero, Hzero. }
  unfold Tf.div_no_nan in Hloss.
  rewrite Hpresent in Hloss.
  assert (Hl5zero : Forall (Forall (fun q => q == 0)) (l_l5_mask r)).
  { rewrite Hl5m.
    apply Forall_gather_rows; [reflexivity | exact Hzero]. }
  exists (l_accuracy r).
  split.
  - unfold loss_function.
    rewrite Hr; cbn [bind].
    rewrite Hloss.
    reflexivity.
  - rewrite Hacc.
    unfold Qdiv.
    rewrite (reduce_sum_zero _ (Forall_map2_mult_zero (l_l5_labels r) _ Hl5zero)).
    ring.
Qed.

(** X4. On a batch whose mask holds no pair at all (for instance when
    every position is padding), [loss_function] returns the loss 0 and an
    accuracy equal to 0, whatever the labels and the logits. *)
Theorem loss_zero_without_pairs (xent : Q -> Q -> Q) (min_residue_distance : option Z)
    (inputs : Inputs) (outputs : Outputs) :
  wf_batch inputs outputs = true ->
  (forall b i j : nat,
     at3 (get_mask (__init__ min_residue_distance) inputs) b i j <> Some true) ->
  exists accuracy : Q,
    loss_function xent (__init__ min_residue_distance) inputs outputs
    = Ok (0, [("ACC"%string, accuracy)])
    /\ accuracy == 0.
Proof.
  apply loss_function_empty_mask.
Qed.

(** X5. On a batch whose padded length is at most the minimum residue
    distance no pair is far enough apart: [loss_function] returns the
    loss 0 and an accuracy equal to 0.  With the default distance this
    covers every batch padded to 6 residues or fewer. *)
Theorem loss_zero_short_sequences (xent : Q -> Q -> Q) (min_residue_distance : option Z)
    (inputs : Inputs) (outputs : Outputs) :
  wf_batch inputs outputs = true ->
  (Z.of_nat (seqlen_of inputs) <= _min_residue_distance (__init__ min_residue_distance))%Z ->
  exists accuracy : Q,
    loss_function xent (__init__ min_residue_distance) inputs outputs
    = Ok (0, [("ACC"%string, accuracy)])
    /\ accuracy == 0.
Proof.
  intros Hwf Hshort.
  apply loss_function_empty_mask; [exact Hwf|].
  intros b i j.
  rewrite get_mask_at.
  destruct (nth_error (valid_mask inputs) b) as [row|]; [|discriminate].
  destruct (nth_error row i) as [vi|], (nth_error row j) as [vj|]; try discriminate.
  fold (seqlen_of inputs).
  destruct (Nat.ltb_spec i (seqlen_of inputs)) as [Hi|]; [|discriminate].
  destruct (Nat.ltb_spec j (seqlen_of inputs)) as [Hj|]; [|discriminate].
  simpl in Hshort |- *.
  replace (_ <=? Z.abs (Z.of_nat j - Z.of_nat i))%Z with false
    by (symmetry; apply Z.leb_gt; lia).
  rewrite andb_false_r.
  discriminate.
Qed.

Lemma loss_zero_without_pairs_witness :
  exists accuracy : Q,
    loss_function xent_sq (__init__ (Some 1%Z)) batch4_all_padding outputs4
    = Ok (0, [("ACC"%string, accuracy)])
    /\ accuracy == 0.
Proof.
  apply (loss_zero_without_pairs xent_sq (Some 1%Z) batch4_all_padding outputs4).
  - vm_compute; reflexivity.
  - intros b i j.
    destruct b as [|b]; [|destruct b; discriminate].
    do 5 (destruct i as [|i]; [do 5 (destruct j as [|j]; [discriminate|]);
                                destruct j; discriminate|]).
    destruct i; discriminate.
Defined.

Lemma loss_zero_short_sequences_witness :
  exists accuracy : Q,
    loss_function xent_sq (__init__ None) batch4 outputs4
    = Ok (0, [("ACC"%string, accuracy)])
    /\ accuracy == 0.
Proof.
  apply (loss_zero_short_sequences xent_sq None batch4 outputs4).
  - vm_compute; reflexivity.
  - vm_compute; discriminate.
Defined.

Lemma Forall_rows_of_empty_indices {A : Type} (P : A -> Prop) (d : A)
    (params : list (list A)) (indices : list (list nat)) :
  Forall (fun idx => idx = []) indices ->
  Forall (Forall P) (map2 (fun prow idx => map (fun c => nth c prow d) idx) params indices).
Proof.
  intros Hidx.
  revert params.
  induction Hidx as [|idx indices Hnil _ IH]; intros [|prow params]; simpl; try constructor.
  - subst idx; constructor.
  - apply IH.
Qed.

(** X6. When every protein of the batch is shorter than 5 residues,
    [k = 0]: no pair is ranked for any example and the accuracy is 0,
    whatever the labels and the logits. *)
Theorem accuracy_zero_when_k_zero (xent : Q -> Q -> Q) (min_residue_distance : option Z)
    (inputs : Inputs) (outputs : Outputs) :
  wf_batch inputs outputs = true ->
  Forall (fun n => (n < 5)%Z) (protein_length inputs) ->
  exists (loss accuracy : Q) (r : Locals),
    loss_function xent (__init__ min_residue_distance) inputs outputs
    = Ok (loss, [("ACC"%string, accuracy)])
    /\ loss_function_locals xent (__init__ min_residue_distance) inputs outputs = Ok r
    /\ length (l_indices r) = length (protein_length inputs)
    /\ Forall (fun idx => idx = []) (l_indices r)
    /\ accuracy == 0.
Proof.
  intros Hwf Hshort.
  destruct (loss_function_locals_wf xent min_residue_distance inputs outputs Hwf)
    as (r & Hr & _ & _ & _ & _ & _ & Hidx & _ & Hl5m & Hacc).
  pose proof (wf_batch_max_prot_len _ _ Hwf) as [Hlo _].
  pose proof (wf_batch_inv _ _ Hwf) as (_ & _ & Hv & _ & Ho & _).
  assert (Hmax : (Tf.reduce_max (protein_length inputs) <= 4)%Z).
  { apply reduce_max_upper; [unfold Tf.int32_min; lia|].
    eapply Forall_impl; [|exact Hshort].
    intros n Hn; simpl in Hn; lia. }
  assert (Hk : top_l_over_5_k inputs = 0%nat).
  { unfold top_l_over_5_k.
    rewrite Z.div_small by lia.
    reflexivity. }
  assert (Hscores : has_shape2 (batch_size_of inputs) (seqlen_of inputs * seqlen_of inputs)
                      (ranking_scores (__init__ min_residue_distance) inputs outputs) = true).
  { apply has_shape2_map2.
    - apply has_shape3_map_concat, has_shape3_squeezed, Ho.
    - apply has_shape2_map, has_shape3_map_concat, has_shape3_get_mask, Hv. }
  apply has_shape2_iff in Hscores as [Hrows _].
  assert (Hnil : Forall (fun idx => idx = []) (l_indices r)).
  { rewrite Hidx, Hk, map_map.
    apply Forall_map, Forall_forall.
    intros row _; reflexivity. }
  exists (l_loss r), (l_accuracy r), r.
  split; [unfold loss_function; rewrite Hr; reflexivity|].
  split; [exact Hr|].
  split; [rewrite Hidx, !length_map; exact Hrows|].
  split; [exact Hnil|].
  rewrite Hacc.
  unfold Qdiv.
  assert (Hl5zero : Forall (Forall (fun q => q == 0)) (l_l5_mask r)).
  { rewrite Hl5m.
    apply Forall_rows_of_empty_indices, Hnil. }
  rewrite (reduce_sum_zero _ (Forall_map2_mult_zero (l_l5_labels r) _ Hl5zero)).
  ring.
Qed.

Lemma accuracy_zero_when_k_zero_witness :
  exists (loss accuracy : Q),
    loss_function xent_sq (__init__ (Some 1%Z)) batch4 outputs4
    = Ok (loss, [("ACC"%string, accuracy)])
    /\ accuracy == 0.
Proof.
  destruct (accuracy_zero_when_k_zero xent_sq (Some 1%Z) batch4 outputs4)
    as (loss & accuracy & r & Hrun & _ & _ & _ & Hacc).
  - vm_compute; reflexivity.
  - repeat constructor.
  - exists loss, accuracy.
    split; [exact Hrun | exact Hacc].
Defined.

(** ** Entries of flattened tensors *)

Lemma at2_map {A B : Type} (f : A -> B) (t : list (list A)) (b c : nat) :
  at2 (map (map f) t) b c = option_map f (at2 t b c).
Proof.
  unfold at2.
  rewrite nth_error_map.
  destruct (nth_error t b) as [row|]; simpl; [|reflexivity].
  apply nth_error_map.
Qed.

Lemma at2_map2 {A B C : Type} (f : A -> B -> C) (t1 : list (list A)) (t2 : list (list B))
    (b c : nat) :
  at2 (map2 (map2 f) t1 t2) b c =
  match at2 t1 b c, at2 t2 b c with
  | Some x, Some y => Some (f x y)
  | _, _ => None
  end.
Proof.
  unfold at2.
  rewrite nth_error_map2.
  destruct (nth_error t1 b) as [r1|], (nth_error t2 b) as [r2|]; try reflexivity.
  - apply nth_error_map2.
  - destruct (nth_error r1 c); reflexivity.
Qed.

Lemma at2_Some_iff {A : Type} (n m : nat) (t : list (list A)) (b c : nat) :
  has_shape2 n m t = true ->
  ((exists x, at2 t b c = Some x) <-> (b < n)%nat /\ (c < m)%nat).
Proof.
  intros Ht.
  apply has_shape2_iff in Ht as [Hn Hrows].
  rewrite Forall_forall in Hrows.
  unfold at2.
  split.
  - intros [x Hx].
    destruct (nth_error t b) as [row|] eqn:Hrow; [|discriminate].
    pose proof (Hrows row (nth_error_In _ _ Hrow)) as Hlen.
    cbv beta in Hlen.
    split.
    + rewrite <- Hn.
      apply nth_error_Some; congruence.
    + rewrite <- Hlen.
      apply nth_error_Some; congruence.
  - intros [Hb Hc].
    destruct (nth_error t b) as [row|] eqn:Hrow.
    + pose proof (Hrows row (nth_error_In _ _ Hrow)) as Hlen.
      cbv beta in Hlen.
      destruct (nth_error row c) as [x|] eqn:Hx; [exists x; reflexivity|].
      apply nth_error_None in Hx; lia.
    + apply nth_error_None in Hrow; lia.
Qed.

(** Two matrices of one shape with the same entries are equal. *)
Lemma shape2_ext {A : Type} (n m : nat) (t t' : list (list A)) :
  has_shape2 n m t = true -> has_shape2 n m t' = true ->
  (forall b c, at2 t b c = at2 t' b c) ->
  t = t'.
Proof.
  intros Ht Ht' Heq.
  apply has_shape2_iff in Ht as [Hn Hrows], Ht' as [Hn' Hrows'].
  rewrite Forall_forall in Hrows, Hrows'.
  apply nth_error_ext.
  intros b.
  specialize (Heq b).
  unfold at2 in Heq.
  destruct (nth_error t b) as [row|] eqn:Hrow, (nth_error t' b) as [row'|] eqn:Hrow'.
  - f_equal.
    apply nth_error_ext, Heq.
  - apply nth_error_None in Hrow'.
    assert (b < length t)%nat by (apply nth_error_Some; congruence).
    lia.
  - apply nth_error_None in Hrow.
    assert (b < length t')%nat by (apply nth_error_Some; congruence).
    lia.
  - reflexivity.
Qed.

(** Index [c] of a flattened example is the pair [(c / p, c mod p)]. *)
Lemma at2_flat_pair {A : Type} (n m p : nat) (t : list (list (list A))) (b c : nat) :
  has_shape3 n m p t = true -> (c < m * p)%nat ->
  at2 (map (@concat A) t) b c = at3 t b (c / p) (c mod p).
Proof.
  intros H3 Hc.
  assert (Hp : (0 < p)%nat) by nia.
  rewrite <- (at2_map_concat n m p t b (c / p) (c mod p) H3)
    by (apply Nat.mod_upper_bound; lia).
  rewrite (Nat.div_mod_eq c p) at 1.
  f_equal; lia.
Qed.

(** ** The loss and the masked pairs *)

Lemma get_mask_same_positions (self : ContactMapTask) (inputs inputs' : Inputs) :
  primary inputs' = primary inputs -> valid_mask inputs' = valid_mask inputs ->
  get_mask self inputs' = get_mask self inputs.
Proof.
  intros Hp Hv.
  unfold get_mask.
  rewrite Hp, Hv.
  reflexivity.
Qed.

(** Two batches with the same positions whose labels and logits agree on
    every pair of the mask run to the same loss. *)
Lemma loss_agrees_on_mask (xent : Q -> Q -> Q) (min_residue_distance : option Z)
    (inputs inputs' : Inputs) (outputs outputs' : Outputs) :
  wf_batch inputs outputs = true ->
  wf_batch inputs' outputs' = true ->
  primary inputs' = primary inputs ->
  valid_mask inputs' = valid_mask inputs ->
  (forall b i j : nat,
     at3 (get_mask (__init__ min_residue_distance) inputs) b i j = Some true ->
     at3 (contact_map inputs') b i j = at3 (contact_map inputs) b i j
     /\ at3 (squeezed outputs') b i j = at3 (squeezed outputs) b i j) ->
  exists r r' : Locals,
    loss_function_locals xent (__init__ min_residue_distance) inputs outputs = Ok r
    /\ loss_function_locals xent (__init__ min_residue_distance) inputs' outputs' = Ok r'
    /\ l_loss r' == l_loss r.
Proof.
  intros Hwf Hwf' Hprim Hvalid Hagree.
  set (self := __init__ min_residue_distance) in *.
  destruct (loss_function_locals_wf xent min_residue_distance inputs outputs Hwf)
    as (r & Hr & _ & _ & _ & Hloss & _).
  destruct (loss_function_locals_wf xent min_residue_distance inputs' outputs' Hwf')
    as (r' & Hr' & _ & _ & _ & Hloss' & _).
  fold self in Hr, Hr', Hloss, Hloss'.
  pose proof (wf_batch_inv _ _ Hwf) as (_ & Hp & Hv & Hc & Ho & _).
  pose proof (wf_batch_inv _ _ Hwf') as (_ & Hp' & _ & Hc' & Ho' & _).
  assert (HL : seqlen_of inputs' = seqlen_of inputs).
  { unfold seqlen_of; rewrite Hprim; reflexivity. }
  assert (HB : batch_size_of inputs' = batch_size_of inputs).
  { apply has_shape2_iff in Hp as [Hp _], Hp' as [Hp' _].
    rewrite Hprim in Hp'; congruence. }
  rewrite HL, HB in Hc', Ho'.
  set (B := batch_size_of inputs) in *.
  set (L := seqlen_of inputs) in *.
  assert (Hmask : has_shape3 B L L (get_mask self inputs) = true)
    by (apply has_shape3_get_mask, Hv).
  assert (Hsame : flat_mask self inputs' = flat_mask self inputs).
  { unfold flat_mask.
    rewrite (get_mask_same_positions self inputs inputs' Hprim Hvalid).
    reflexivity. }
  assert (Hce : forall (i : Inputs) (o : Outputs),
             has_shape3 B L L (contact_map i) = true ->
             has_shape4 B L L 1 (contact_prob o) = true ->
             has_shape2 B (L * L)
               (map2 (map2 (fun c (m : bool) => if m then c else 0))
                  (map2 (map2 xent) (Tf.cast_int (flat_label i)) (flat_pred o))
                  (flat_mask self inputs)) = true).
  { intros i o Hi Ho2.
    apply has_shape2_map2.
    - apply has_shape2_map2.
      + apply has_shape2_map, has_shape3_map_concat, Hi.
      + apply has_shape3_map_concat, has_shape3_squeezed, Ho2.
    - apply has_shape3_map_concat, Hmask. }
  exists r, r'.
  split; [exact Hr|].
  split; [exact Hr'|].
  rewrite Hloss, Hloss', Hsame, !div_no_nan_Qdiv.
  rewrite !reduce_sum_weighted_cast_bool.
  replace (map2 (map2 (fun c (m : bool) => if m then c else 0))
             (map2 (map2 xent) (Tf.cast_int (flat_label inputs')) (flat_pred outputs'))
             (flat_mask self inputs))
    with (map2 (map2 (fun c (m : bool) => if m then c else 0))
            (map2 (map2 xent) (Tf.cast_int (flat_label inputs)) (flat_pred outputs))
            (flat_mask self inputs)); [reflexivity|].
  apply (shape2_ext B (L * L)); [apply Hce; assumption | apply Hce; assumption|].
  intros b c.
  unfold Tf.cast_int.
  rewrite !at2_map2, !at2_map.
  destruct (at2 (flat_mask self inputs) b c) as [m|] eqn:Hm.
  - assert (Hrange : (b < B)%nat /\ (c < L * L)%nat).
    { apply (at2_Some_iff B (L * L) (flat_mask self inputs)).
      - apply has_shape3_map_concat, Hmask.
      - exists m; exact Hm. }
    destruct Hrange as [Hb Hcl].
    assert (Hsq : has_shape3 B L L (squeezed outputs) = true)
      by (apply has_shape3_squeezed, Ho).
    assert (Hsq' : has_shape3 B L L (squeezed outputs') = true)
      by (apply has_shape3_squeezed, Ho').
    assert (Hdef : forall (A : Type) (t : list (list (list A))),
               has_shape3 B L L t = true ->
               exists x, at2 (map (@concat A) t) b c = Some x).
    { intros A t Ht.
      apply (at2_Some_iff B (L * L)); [|split; assumption].
      apply has_shape3_map_concat, Ht. }
    destruct (Hdef _ _ Hc) as [l Hl], (Hdef _ _ Hc') as [l' Hl'],
             (Hdef _ _ Hsq) as [p Hp0], (Hdef _ _ Hsq') as [p' Hp0'].
    unfold flat_label, flat_pred.
    rewrite Hl, Hl', Hp0, Hp0'; simpl.
    destruct m; [|reflexivity].
    unfold flat_mask in Hm.
    rewrite (at2_flat_pair B L L _ b c Hmask Hcl) in Hm.
    rewrite (at2_flat_pair B L L _ b c Hc Hcl) in Hl.
    rewrite (at2_flat_pair B L L _ b c Hc' Hcl) in Hl'.
    rewrite (at2_flat_pair B L L _ b c Hsq Hcl) in Hp0.
    rewrite (at2_flat_pair B L L _ b c Hsq' Hcl) in Hp0'.
    destruct (Hagree b (c / L)%nat (c mod L)%nat Hm) as [Hlabel Hlogit].
    congruence.
  - destruct (option_map inject_Z (at2 (flat_label inputs') b c)),
             (at2 (flat_pred outputs') b c),
             (option_map inject_Z (at2 (flat_label inputs) b c)),
             (at2 (flat_pred outputs) b c); reflexivity.
Qed.

(** X8. The loss does not depend on what lies under the mask: two
    batches with the same [primary] and [valid_mask] whose labels and
    logits agree on every pair of the mask get the same loss, however
    they differ on the other pairs. *)
Theorem loss_ignores_masked_pairs (xent : Q -> Q -> Q) (min_residue_distance : option Z)
    (inputs inputs' : Inputs) (outputs outputs' : Outputs) :
  wf_batch inputs outputs = true ->
  wf_batch inputs' outputs' = true ->
  primary inputs' = primary inputs ->
  valid_mask inputs' = valid_mask inputs ->
  (forall b i j : nat,
     at3 (get_mask (__init__ min_residue_distance) inputs) b i j = Some true ->
     at3 (contact_map inputs') b i j = at3 (contact_map inputs) b i j
     /\ at3 (squeezed outputs') b i j = at3 (squeezed outputs) b i j) ->
  exists (loss loss' : Q) (metrics metrics' : list (string * Q)),
    loss_function xent (__init__ min_residue_distance) inputs outputs = Ok (loss, metrics)
    /\ loss_function xent (__init__ min_residue_distance) inputs' outputs'
       = Ok (loss', metrics')
    /\ loss' == loss.
Proof.
  intros Hwf Hwf' Hprim Hvalid Hagree.
  destruct (loss_agrees_on_mask xent min_residue_distance inputs inputs' outputs outputs'
              Hwf Hwf' Hprim Hvalid Hagree) as (r & r' & Hr & Hr' & Hloss).
  exists (l_loss r), (l_loss r'),
         [(key_metric (__init__ min_residue_distance), l_accuracy r)],
         [(key_metric (__init__ min_residue_distance), l_accuracy r')].
  split; [unfold loss_function; rewrite Hr; reflexivity|].
  split; [unfold loss_function; rewrite Hr'; reflexivity|].
  exact Hloss.
Qed.

Lemma loss_ignores_masked_pairs_witness :
  exists (loss loss' : Q) (metrics metrics' : list (string * Q)),
    loss_function xent_sq (__init__ (Some 2%Z)) batch4_contacts outputs4
    = Ok (loss, metrics)
    /\ loss_function xent_sq (__init__ (Some 2%Z)) batch4_missing outputs4_diagonal
       = Ok (loss', metrics')
    /\ loss' == loss.
Proof.
  apply (loss_ignores_masked_pairs xent_sq (Some 2%Z) batch4_contacts batch4_missing
           outputs4 outputs4_diagonal).
  - vm_compute; reflexivity.
  - vm_compute; reflexivity.
  - reflexivity.
  - reflexivity.
  - intros b i j.
    destruct b as [|[|b]];
      destruct i as [|[|[|[|[|i]]]]];
      destruct j as [|[|[|[|[|j]]]]];
      vm_compute; intros H; first [discriminate H | split; reflexivity].
Defined.

(** ** The accuracy and the labels under the mask *)

Lemma sum_weighted_bounds_pointwise (ls ms : list Q) :
  Forall2 (fun l m => 0 <= m /\ 0 <= l * m <= m) ls ms ->
  0 <= Tf.sum (map2 Qmult ls ms) <= Tf.sum ms.
Proof.
  induction 1 as [|l m ls ms (Hm & Hlo & Hhi) _ IH]; simpl.
  - split; apply Qle_refl.
  - lra.
Qed.

Lemma reduce_sum_weighted_bounds_pointwise (ls ms : list (list Q)) :
  Forall2 (Forall2 (fun l m => 0 <= m /\ 0 <= l * m <= m)) ls ms ->
  0 <= Tf.reduce_sum (map2 (map2 Qmult) ls ms) <= Tf.reduce_sum ms.
Proof.
  unfold Tf.reduce_sum.
  induction 1 as [|l m ls ms Hrow _ IH]; simpl.
  - split; apply Qle_refl.
  - pose proof (sum_weighted_bounds_pointwise l m Hrow).
    lra.
Qed.

(** Gathering labels and weights at the same indices keeps a relation
    that holds at every index of the two rows. *)
Lemma Forall2_gathered (R : Q -> Q -> Prop) (labels : list (list Z)) (weights : list (list Q))
    (indices : list (list nat)) :
  Forall2 (fun lrow wrow => forall c, R (inject_Z (nth c lrow 0%Z)) (nth c wrow 0))
          labels weights ->
  Forall2 (Forall2 R)
    (Tf.cast_int (map2 (fun prow idx => map (fun c => nth c prow 0%Z) idx) labels indices))
    (map2 (fun prow idx => map (fun c => nth c prow 0) idx) weights indices).
Proof.
  intros Hrows.
  revert indices.
  induction Hrows as [|lrow wrow labels weights Hrow _ IH]; intros [|idx indices]; simpl;
    try constructor.
  - induction idx as [|c idx IHidx]; simpl; constructor.
    + apply Hrow.
    + exact IHidx.
  - apply IH.
Qed.

Lemma Forall2_nth_error {A B : Type} (R : A -> B -> Prop) (l1 : list A) (l2 : list B) :
  length l1 = length l2 ->
  (forall n x y, nth_error l1 n = Some x -> nth_error l2 n = Some y -> R x y) ->
  Forall2 R l1 l2.
Proof.
  revert l2.
  induction l1 as [|a l1 IH]; intros [|b l2] Hlen HR; simpl in Hlen; try discriminate.
  - constructor.
  - constructor.
    + apply (HR 0%nat); reflexivity.
    + apply IH; [lia|].
      intros n x y Hx Hy.
      apply (HR (S n)); assumption.
Qed.

(** X9. The accuracy needs binary labels on the pairs of the mask only:
    whatever the labels of the other pairs (for instance -1 for a missing
    contact), [loss_function] returns an accuracy in [[0, 1]]. *)
Theorem accuracy_bounds_masked_labels (xent : Q -> Q -> Q) (min_residue_distance : option Z)
    (inputs : Inputs) (outputs : Outputs) :
  wf_batch inputs outputs = true ->
  (forall b i j : nat,
     at3 (get_mask (__init__ min_residue_distance) inputs) b i j = Some true ->
     at3 (contact_map inputs) b i j = Some 0%Z
     \/ at3 (contact_map inputs) b i j = Some 1%Z) ->
  exists (loss accuracy : Q),
    loss_function xent (__init__ min_residue_distance) inputs outputs
    = Ok (loss, [("ACC"%string, accuracy)])
    /\ 0 <= accuracy <= 1.
Proof.
  intros Hwf Hbin.
  set (self := __init__ min_residue_distance) in *.
  destruct (loss_function_locals_wf xent min_residue_distance inputs outputs Hwf)
    as (r & Hr & _ & _ & _ & _ & _ & _ & Hl5l & Hl5m & Hacc).
  fold self in Hr, Hl5m.
  pose proof (wf_batch_inv _ _ Hwf) as (_ & _ & Hv & Hc & _ & _).
  set (B := batch_size_of inputs) in *.
  set (L := seqlen_of inputs) in *.
  assert (Hmask : has_shape3 B L L (get_mask self inputs) = true)
    by (apply has_shape3_get_mask, Hv).
  pose proof (has_shape3_map_concat _ _ _ _ Hmask) as Hfm.
  pose proof (has_shape3_map_concat _ _ _ _ Hc) as Hfl.
  fold (flat_mask self inputs) in Hfm.
  fold (flat_label inputs) in Hfl.
  assert (Hrows : Forall2
                    (fun lrow wrow =>
                       forall c,
                         0 <= nth c wrow 0
                         /\ 0 <= inject_Z (nth c lrow 0%Z) * nth c wrow 0 <= nth c wrow 0)
                    (flat_label inputs) (Tf.cast_bool (flat_mask self inputs))).
  { apply Forall2_nth_error.
    - unfold Tf.cast_bool.
      rewrite length_map.
      apply has_shape2_iff in Hfm as [-> _], Hfl as [-> _].
      reflexivity.
    - intros b lrow wrow Hlrow Hwrow c.
      unfold Tf.cast_bool in Hwrow.
      rewrite nth_error_map in Hwrow.
      destruct (nth_error (flat_mask self inputs) b) as [mrow|] eqn:Hmrow; [|discriminate].
      injection Hwrow as <-.
      destruct (nth_error mrow c) as [m|] eqn:Hm.
      + rewrite (nth_error_nth _ _ 0 (eq_trans (nth_error_map _ _ _) (f_equal _ Hm))).
        destruct m; [|simpl; lra].
        assert (Hat : at2 (flat_mask self inputs) b c = Some true)
          by (unfold at2; rewrite Hmrow; exact Hm).
        assert (Hrange : (b < B)%nat /\ (c < L * L)%nat).
        { apply (at2_Some_iff B (L * L) (flat_mask self inputs) b c Hfm).
          exists true; exact Hat. }
        destruct Hrange as [_ Hcl].
        unfold flat_mask in Hat.
        rewrite (at2_flat_pair B L L _ b c Hmask Hcl) in Hat.
        assert (Hlabel : at2 (flat_label inputs) b c
                         = at3 (contact_map inputs) b (c / L) (c mod L))
          by (apply (at2_flat_pair B L L _ b c Hc Hcl)).
        unfold at2 in Hlabel.
        rewrite Hlrow in Hlabel.
        destruct (Hbin b (c / L)%nat (c mod L)%nat Hat) as [H01 | H01];
          rewrite H01 in Hlabel;
          rewrite (nth_error_nth _ _ 0%Z Hlabel);
          unfold inject_Z; lra.
      + apply nth_error_None in Hm.
        rewrite (nth_overflow _ 0) by (rewrite length_map; exact Hm).
        lra. }
  pose proof (Forall2_gathered
                (fun l m => 0 <= m /\ 0 <= l * m <= m) _ _ (l_indices r) Hrows) as Hl5.
  rewrite <- Hl5l, <- Hl5m in Hl5.
  pose proof (reduce_sum_weighted_bounds_pointwise _ _ Hl5) as [Hnum0 Hnum1].
  assert (Hden0 : 0 <= Tf.reduce_sum (l_l5_mask r)).
  { apply reduce_sum_nonneg.
    clear - Hl5.
    induction Hl5 as [|lrow wrow ls ws Hrow _ IH]; constructor; [|exact IH].
    clear - Hrow.
    induction Hrow as [|l m lrow wrow [Hm _] _ IH]; constructor; assumption. }
  unfold epsilon in Hacc.
  exists (l_loss r), (l_accuracy r).
  split; [unfold loss_function; rewrite Hr; reflexivity|].
  rewrite Hacc.
  split.
  - apply Qle_shift_div_l; lra.
  - apply Qle_shift_div_r; lra.
Qed.

Lemma accuracy_bounds_masked_labels_witness :
  exists (loss accuracy : Q),
    loss_function xent_sq (__init__ (Some 2%Z)) batch4_missing outputs4
    = Ok (loss, [("ACC"%string, accuracy)])
    /\ 0 <= accuracy <= 1.
Proof.
  apply (accuracy_bounds_masked_labels xent_sq (Some 2%Z) batch4_missing outputs4).
  - vm_compute; reflexivity.
  - intros b i j.
    destruct b as [|[|b]];
      destruct i as [|[|[|[|[|i]]]]];
      destruct j as [|[|[|[|[|j]]]]];
      vm_compute; intros H; first [discriminate H | right; reflexivity].
Defined.

(** ** What the ranking selects *)

Lemma In_combine_seq_of_nth_error {A : Type} (row : list A) (s i : nat) (v : A) :
  nth_error row i = Some v -> In ((s + i)%nat, v) (combine (seq s (length row)) row).
Proof.
  revert s i.
  induction row as [|a row IH]; intros s [|i] Hnth; simpl in *; try discriminate.
  - injection Hnth as <-.
    left; f_equal; lia.
  - right.
    replace (s + S i)%nat with (S s + i)%nat by lia.
    apply IH, Hnth.
Qed.

(** X10. The ranking orders the unmasked pairs by logit: within an
    example, an unmasked pair that is not selected never has a larger
    logit than an unmasked pair that is selected. *)
Theorem ranking_prefers_larger_logits (xent : Q -> Q -> Q) (min_residue_distance : option Z)
    (inputs : Inputs) (outputs : Outputs) :
  wf_batch inputs outputs = true ->
  exists r : Locals,
    loss_function_locals xent (__init__ min_residue_distance) inputs outputs = Ok r
    /\ forall (b c c' : nat) (idx : list nat) (p p' : Q),
         nth_error (l_indices r) b = Some idx ->
         In c idx -> ~ In c' idx ->
         at2 (flat_mask (__init__ min_residue_distance) inputs) b c = Some true ->
         at2 (flat_mask (__init__ min_residue_distance) inputs) b c' = Some true ->
         at2 (flat_pred outputs) b c = Some p ->
         at2 (flat_pred outputs) b c' = Some p' ->
         p' <= p.
Proof.
  intros Hwf.
  set (self := __init__ min_residue_distance) in *.
  destruct (loss_function_locals_wf xent min_residue_distance inputs outputs Hwf)
    as (r & Hr & _ & _ & _ & _ & _ & Hidx & _).
  fold self in Hr, Hidx.
  pose proof (wf_batch_k _ _ Hwf) as [_ Hkm].
  pose proof (wf_batch_inv _ _ Hwf) as (_ & _ & Hv & _ & Ho & _).
  assert (Hscores : has_shape2 (batch_size_of inputs) (seqlen_of inputs * seqlen_of inputs)
                      (ranking_scores self inputs outputs) = true).
  { apply has_shape2_map2.
    - apply has_shape3_map_concat, has_shape3_squeezed, Ho.
    - apply has_shape2_map, has_shape3_map_concat, has_shape3_get_mask, Hv. }
  apply has_shape2_iff in Hscores as [_ Hcols].
  rewrite Forall_forall in Hcols.
  exists r.
  split; [exact Hr|].
  intros b c c' idx p p' Hrow Hc Hc' Hm Hm' Hp Hp'.
  rewrite Hidx, map_map, nth_error_map in Hrow.
  destruct (nth_error (ranking_scores self inputs outputs) b) as [srow|] eqn:Hsrow;
    [|discriminate].
  injection Hrow as <-.
  pose proof (Hcols srow (nth_error_In _ _ Hsrow)) as Hlen.
  cbv beta in Hlen.
  assert (Hscore : forall x q,
             at2 (flat_mask self inputs) b x = Some true ->
             at2 (flat_pred outputs) b x = Some q ->
             nth_error srow x = Some (q - 1000 * (1 - 1))).
  { intros x q Hxm Hxq.
    pose proof (at2_map2 (fun p m => p - 1000 * (1 - m)) (flat_pred outputs)
                  (Tf.cast_bool (flat_mask self inputs)) b x) as Hat.
    unfold Tf.cast_bool in Hat.
    rewrite at2_map, Hxm, Hxq in Hat.
    unfold at2 in Hat.
    fold (Tf.cast_bool (flat_mask self inputs)) in Hat.
    fold (ranking_scores self inputs outputs) in Hat.
    rewrite Hsrow in Hat.
    exact Hat. }
  pose proof (Hscore c p Hm Hp) as Hsc.
  pose proof (Hscore c' p' Hm' Hp') as Hsc'.
  unfold Tf.top_k_row in Hc, Hc'.
  destruct (select_largest (top_l_over_5_k inputs) (combine (seq 0 (length srow)) srow))
    as (rest & Hperm & Hdom).
  assert (Hk : (top_l_over_5_k inputs <= length (combine (seq 0 (length srow)) srow))%nat).
  { rewrite length_combine, length_seq; lia. }
  specialize (Hdom Hk).
  rewrite Forall_forall in Hdom.
  apply in_map_iff in Hc as [[c0 s] [Hfst Hsel]].
  simpl in Hfst; subst c0.
  assert (Hs : nth_error srow c = Some s).
  { apply select_In, In_combine_seq in Hsel as [_ Hnth].
    rewrite Nat.sub_0_r in Hnth; exact Hnth. }
  assert (Hrest : In (c', p' - 1000 * (1 - 1)) rest).
  { pose proof (In_combine_seq_of_nth_error srow 0 c' _ Hsc') as Hin.
    simpl in Hin.
    apply (Permutation_in _ Hperm), in_app_or in Hin as [Hin | Hin]; [|exact Hin].
    exfalso; apply Hc'.
    apply in_map_iff.
    exists (c', p' - 1000 * (1 - 1)); split; [reflexivity | exact Hin]. }
  pose proof (Hdom (c, s) Hsel) as Hall.
  rewrite Forall_forall in Hall.
  specialize (Hall _ Hrest).
  simpl in Hall.
  assert (s = p - 1000 * (1 - 1)) by congruence.
  subst s.
  lra.
Qed.

Lemma ranking_prefers_larger_logits_witness :
  exists r : Locals,
    loss_function_locals xent_sq (__init__ None) batch20 outputs20 = Ok r
    /\ at2 (flat_pred outputs20) 1 279 = Some 32
    /\ at2 (flat_pred outputs20) 1 6 = Some 6
    /\ 6 <= 32.
Proof.
  destruct (ranking_prefers_larger_logits xent_sq None batch20 outputs20)
    as (r & Hr & Hrank); [vm_compute; reflexivity|].
  exists r.
  split; [exact Hr|].
  split; [reflexivity|].
  split; [reflexivity|].
  apply (Hrank 1%nat 279%nat 6%nat [279; 393; 259; 392]%nat 32 6).
  - pose proof Hr as Hr'.
    vm_compute in Hr'.
    injection Hr' as <-.
    reflexivity.
  - left; reflexivity.
  - intros [H | [H | [H | [H | []]]]]; discriminate H.
  - vm_compute; reflexivity.
  - vm_compute; reflexivity.
  - reflexivity.
  - reflexivity.
Defined.

Lemma at2_gathered {A : Type} (d : A) (params : list (list A)) (indices : list (list nat))
    (b t c : nat) (prow : list A) :
  nth_error params b = Some prow ->
  at2 indices b t = Some c ->
  at2 (map2 (fun prow idx => map (fun c => nth c prow d) idx) params indices) b t
  = Some (nth c prow d).
Proof.
  unfold at2.
  intros Hprow Hc.
  rewrite nth_error_map2, Hprow.
  destruct (nth_error indices b) as [idx|]; [|discriminate].
  rewrite nth_error_map, Hc.
  reflexivity.
Qed.

(** X11. The gathered entries are those of the selected pairs: when the
    ranking selects the flattened index [c] for example [b], the label
    and the mask weight gathered for it are the label and the mask value
    of the pair [(c / L, c mod L)] of that example. *)
Theorem gathered_entries_of_selected_pairs (xent : Q -> Q -> Q)
    (min_residue_distance : option Z) (inputs : Inputs) (outputs : Outputs) :
  wf_batch inputs outputs = true ->
  exists r : Locals,
    loss_function_locals xent (__init__ min_residue_distance) inputs outputs = Ok r
    /\ forall b t c : nat,
         at2 (l_indices r) b t = Some c ->
         (c < seqlen_of inputs * seqlen_of inputs)%nat
         /\ exists (l : Z) (m : bool),
              at3 (contact_map inputs) b (c / seqlen_of inputs) (c mod seqlen_of inputs)
              = Some l
              /\ at3 (get_mask (__init__ min_residue_distance) inputs) b
                   (c / seqlen_of inputs) (c mod seqlen_of inputs) = Some m
              /\ at2 (l_l5_labels r) b t = Some (inject_Z l)
              /\ at2 (l_l5_mask r) b t = Some (if m then 1 else 0).
Proof.
  intros Hwf.
  set (self := __init__ min_residue_distance) in *.
  destruct (loss_function_locals_wf xent min_residue_distance inputs outputs Hwf)
    as (r & Hr & _ & _ & _ & _ & _ & Hidx & Hl5l & Hl5m & _).
  fold self in Hr, Hidx, Hl5m.
  pose proof (wf_batch_inv _ _ Hwf) as (_ & _ & Hv & Hc & Ho & _).
  set (B := batch_size_of inputs) in *.
  set (L := seqlen_of inputs) in *.
  assert (Hmask : has_shape3 B L L (get_mask self inputs) = true)
    by (apply has_shape3_get_mask, Hv).
  pose proof (has_shape3_map_concat _ _ _ _ Hmask) as Hfm.
  pose proof (has_shape3_map_concat _ _ _ _ Hc) as Hfl.
  fold (flat_mask self inputs) in Hfm.
  fold (flat_label inputs) in Hfl.
  assert (Hscores : has_shape2 B (L * L) (ranking_scores self inputs outputs) = true).
  { apply has_shape2_map2.
    - apply has_shape3_map_concat, has_shape3_squeezed, Ho.
    - apply has_shape2_map, Hfm. }
  exists r.
  split; [exact Hr|].
  intros b t c Hsel.
  assert (Hrange : (b < B)%nat /\ (c < L * L)%nat).
  { unfold at2 in Hsel.
    rewrite Hidx, map_map, nth_error_map in Hsel.
    destruct (nth_error (ranking_scores self inputs outputs) b) as [srow|] eqn:Hsrow;
      [|discriminate].
    simpl in Hsel.
    apply nth_error_In, in_map_iff in Hsel as [[c0 s] [Hfst Hin]].
    simpl in Hfst; subst c0.
    apply top_k_row_In in Hin.
    apply (at2_Some_iff B (L * L) (ranking_scores self inputs outputs) b c Hscores).
    exists s.
    unfold at2; rewrite Hsrow; exact Hin. }
  destruct Hrange as [Hb Hcl].
  split; [exact Hcl|].
  destruct (proj2 (at2_Some_iff B (L * L) _ b c Hfl) (conj Hb Hcl)) as [l Hl].
  destruct (proj2 (at2_Some_iff B (L * L) _ b c Hfm) (conj Hb Hcl)) as [m Hm].
  exists l, m.
  pose proof Hl as Hl3.
  pose proof Hm as Hm3.
  unfold flat_label in Hl3.
  unfold flat_mask in Hm3.
  rewrite (at2_flat_pair B L L _ b c Hc Hcl) in Hl3.
  rewrite (at2_flat_pair B L L _ b c Hmask Hcl) in Hm3.
  split; [exact Hl3|].
  split; [exact Hm3|].
  unfold at2 in Hl, Hm.
  destruct (nth_error (flat_label inputs) b) as [lrow|] eqn:Hlrow; [|discriminate].
  destruct (nth_error (flat_mask self inputs) b) as [mrow|] eqn:Hmrow; [|discriminate].
  split.
  - rewrite Hl5l.
    unfold Tf.cast_int.
    rewrite at2_map, (at2_gathered 0%Z _ _ b t c lrow Hlrow Hsel).
    rewrite (nth_error_nth _ _ 0%Z Hl).
    reflexivity.
  - rewrite Hl5m.
    assert (Hwrow : nth_error (Tf.cast_bool (flat_mask self inputs)) b
                    = Some (map (fun x : bool => if x then 1 else 0) mrow)).
    { unfold Tf.cast_bool.
      rewrite nth_error_map, Hmrow; reflexivity. }
    rewrite (at2_gathered 0 _ _ b t c _ Hwrow Hsel).
    rewrite (nth_error_nth _ _ 0 (eq_trans (nth_error_map _ _ _) (f_equal _ Hm))).
    reflexivity.
Qed.

Lemma gathered_entries_of_selected_pairs_witness :
  exists r : Locals,
    loss_function_locals xent_sq (__init__ None) batch20 outputs20 = Ok r
    /\ at2 (l_indices r) 1 2 = Some 259%nat
    /\ at3 (contact_map batch20) 1 12 19 = Some 1%Z
    /\ at2 (l_l5_labels r) 1 2 = Some 1.
Proof.
  destruct (gathered_entries_of_selected_pairs xent_sq None batch20 outputs20)
    as (r & Hr & Hgather); [vm_compute; reflexivity|].
  exists r.
  split; [exact Hr|].
  assert (Hsel : at2 (l_indices r) 1 2 = Some 259%nat).
  { pose proof Hr as Hr'.
    vm_compute in Hr'.
    injection Hr' as <-.
    reflexivity. }
  split; [exact Hsel|].
  split; [reflexivity|].
  destruct (Hgather 1%nat 2%nat 259%nat Hsel) as (_ & l & m & Hl & _ & Hlabel & _).
  vm_compute in Hl.
  injection Hl as <-.
  exact Hlabel.
Defined.

(** ** [get_data] *)

Lemma nth_error_removelast {A : Type} (l : list A) (i : nat) :
  (i < length l - 1)%nat -> nth_error (removelast l) i = nth_error l i.
Proof.
  revert i.
  induction l as [|a l IH]; intros i Hi; simpl in Hi; [lia|].
  destruct l as [|a' l]; [simpl in Hi; lia|].
  destruct i as [|i]; [reflexivity|].
  change (nth_error (removelast (a' :: l)) i = nth_error (a' :: l) i).
  apply IH.
  simpl in *; lia.
Qed.

(** The rescaled sizes when there is one boundary fewer than sizes. *)
Lemma get_data_arrays_ok (bounds batch_sizes : list Z) :
  length batch_sizes = S (length bounds) ->
  get_data_arrays (bounds, batch_sizes) =
  Ok (bounds,
      map2 (fun size boundary =>
              if (1000 <? boundary)%Z then 0%Z
              else if (Np.sqrt_div4_int32 size <=? 0)%Z then 1%Z
                   else Np.sqrt_div4_int32 size)
           (removelast batch_sizes) bounds
      ++ [0%Z]).
Proof.
  intros Hlen.
  unfold get_data_arrays, Np.setitem_bool_init, Np.setitem_bool, Np.clamp_nonpositive.
  rewrite !removelast_map, !length_map, length_removelast, Hlen.
  simpl Nat.sub.
  rewrite Nat.sub_0_r, Nat.eqb_refl.
  cbn [bind].
  rewrite !map2_map_l, map2_map_r.
  set (rescaled := map2 _ (removelast batch_sizes) bounds).
  assert (Hlast : exists y, skipn (length bounds)
                              (map (fun x => if (x <=? 0)%Z then 1%Z else x)
                                 (map Np.sqrt_div4_int32 batch_sizes)) = [y]).
  { match goal with |- exists y, ?l = _ => assert (Hl : length l = 1%nat) end.
    { rewrite length_skipn, !length_map, Hlen. lia. }
    match type of Hl with length ?l = _ => destruct l as [|y [|z l']] end;
      simpl in Hl; try discriminate.
    exists y; reflexivity. }
  destruct Hlast as [y ->].
  unfold Np.setitem_last.
  destruct (rescaled ++ [y]) as [|x xs] eqn:Happ.
  - destruct rescaled; discriminate Happ.
  - rewrite <- Happ, removelast_snoc.
    reflexivity.
Qed.



(** X13. For boundaries within int32 and nominal batch sizes from 0 to
    [2^31 - 1], with one boundary fewer than sizes: the last batch size
    is 0 and the batch size of every other bucket is 0 when its boundary
    exceeds 1000 and at least 1 otherwise: 1 for every nominal size from
    0 to 15, and from 16 on the [v] with [16 v^2 <= size < 16 (v+1)^2]. *)
Theorem get_data_sizes (bounds batch_sizes : list Z) :
  Forall in_int32 bounds ->
  Forall (fun size => (0 <= size < 2 ^ 31)%Z) batch_sizes ->
  length batch_sizes = S (length bounds) ->
  exists sizes : list Z,
    get_data_arrays (bounds, batch_sizes) = Ok (bounds, sizes)
    /\ length sizes = length batch_sizes
    /\ nth_error sizes (length bounds) = Some 0%Z
    /\ forall (i : nat) (boundary size : Z),
         nth_error bounds i = Some boundary ->
         nth_error batch_sizes i = Some size ->
         exists v : Z,
           nth_error sizes i = Some v
           /\ ((1000 < boundary)%Z -> v = 0%Z)
           /\ ((boundary <= 1000)%Z ->
               (1 <= v)%Z
               /\ ((0 <= size < 16)%Z -> v = 1%Z)
               /\ ((16 <= size)%Z -> (16 * v * v <= size < 16 * (v + 1) * (v + 1))%Z)).
Proof.
  intros _ _ Hlen.
  eexists.
  split; [apply (get_data_arrays_ok bounds batch_sizes Hlen)|].
  assert (Hl2 : length (map2 (fun size boundary =>
                                if (1000 <? boundary)%Z then 0%Z
                                else if (Np.sqrt_div4_int32 size <=? 0)%Z then 1%Z
                                     else Np.sqrt_div4_int32 size)
                          (removelast batch_sizes) bounds) = length bounds).
  { rewrite length_map2, length_removelast, Hlen; simpl; lia. }
  split; [rewrite length_app, Hl2, Hlen; simpl; lia|].
  split.
  - rewrite nth_error_app2 by lia.
    rewrite Hl2, Nat.sub_diag.
    reflexivity.
  - intros i boundary size Hb Hs.
    assert (Hi : (i < length bounds)%nat) by (apply nth_error_Some; congruence).
    rewrite nth_error_app1 by lia.
    rewrite nth_error_map2, nth_error_removelast, Hb, Hs by lia.
    eexists.
    split; [reflexivity|].
    split.
    + intros Hbig.
      replace (1000 <? boundary)%Z with true by (symmetry; apply Z.ltb_lt; lia).
      reflexivity.
    + intros Hsmall.
      replace (1000 <? boundary)%Z with false by (symmetry; apply Z.ltb_ge; lia).
      destruct (Z.leb_spec (Np.sqrt_div4_int32 size) 0) as [Hclamp | Hkeep].
      * split; [lia|].
        split; [reflexivity|].
        intros Hsize.
        exfalso.
        pose proof (sqrt_div4_int32_spec size ltac:(lia)) as (Hnonneg & _ & Hhi).
        cbv zeta in Hnonneg, Hhi.
        replace (Np.sqrt_div4_int32 size) with 0%Z in Hhi by lia.
        lia.
      * split; [lia|].
        split.
        -- intros Hsize.
           exfalso.
           unfold Np.sqrt_div4_int32 in Hkeep.
           destruct (Z.lt_ge_cases size 0) as [Hneg | Hpos].
           ++ rewrite Z.sqrt_neg in Hkeep by lia.
              rewrite Z.div_0_l in Hkeep by lia.
              lia.
           ++ pose proof (sqrt_div4_int32_spec size Hpos) as (_ & Hlo & _).
              cbv zeta in Hlo.
              unfold Np.sqrt_div4_int32 in Hlo.
              nia.
        -- intros Hsize.
           pose proof (sqrt_div4_int32_spec size ltac:(lia)) as (_ & Hlo & Hhi).
           cbv zeta in Hlo, Hhi.
           lia.
Qed.

Lemma get_data_sizes_witness :
  exists sizes : list Z,
    get_data_arrays ([100; 800; 1200]%Z, [0; 400; 400; 64]%Z) = Ok ([100; 800; 1200]%Z, sizes)
    /\ nth_error sizes 0 = Some 1%Z
    /\ nth_error sizes 1 = Some 5%Z
    /\ nth_error sizes 2 = Some 0%Z
    /\ nth_error sizes 3 = Some 0%Z.
Proof.
  destruct (get_data_sizes [100; 800; 1200]%Z [0; 400; 400; 64]%Z)
    as (sizes & Hrun & _ & Hlast & Hrest);
    [repeat constructor; unfold in_int32; lia | repeat constructor; lia | reflexivity|].
  exists sizes.
  split; [exact Hrun|].
  destruct (Hrest 0%nat 100%Z 0%Z eq_refl eq_refl) as (v0 & Hv0 & _ & H0).
  destruct (Hrest 1%nat 800%Z 400%Z eq_refl eq_refl) as (v1 & Hv1 & _ & H1).
  destruct (Hrest 2%nat 1200%Z 400%Z eq_refl eq_refl) as (v2 & Hv2 & H2 & _).
  destruct (H0 ltac:(lia)) as (_ & H0' & _).
  destruct (H1 ltac:(lia)) as (_ & _ & H1').
  rewrite (H0' ltac:(lia)) in Hv0.
  rewrite (H2 ltac:(lia)) in Hv2.
  assert (v1 = 5%Z) by (specialize (H1' ltac:(lia)); nia).
  subst v1.
  split; [exact Hv0|].
  split; [exact Hv1|].
  split; [exact Hv2 | exact Hlast].
Defined.

(** ** File discovery *)

Lemma string_app_assoc (s1 s2 s3 : string) :
  ((s1 ++ s2) ++ s3)%string = (s1 ++ (s2 ++ s3))%string.
Proof.
  induction s1 as [|c s1 IH]; simpl; [reflexivity|].
  rewrite IH.
  reflexivity.
Qed.

Lemma endswith_sep_app_sep (s : string) :
  OsPath.endswith_sep (s ++ String OsPath.sep EmptyString) = true.
Proof.
  induction s as [|c s IH]; simpl; [reflexivity|].
  destruct (s ++ String OsPath.sep EmptyString)%string eqn:Happ.
  - destruct s; discriminate Happ.
  - exact IH.
Qed.

Lemma eqb_app_sep_empty (s : string) :
  String.eqb (s ++ String OsPath.sep EmptyString) EmptyString = false.
Proof.
  destruct s; reflexivity.
Qed.

(** Joining components to a folder written with or without a final
    separator gives the same path. *)
Lemma join_trailing_sep (data_folder a : string) (rest : list string) :
  data_folder <> EmptyString ->
  OsPath.endswith_sep data_folder = false ->
  OsPath.startswith_sep a = false ->
  OsPath.join (data_folder ++ String OsPath.sep EmptyString) (a :: rest)
  = OsPath.join data_folder (a :: rest).
Proof.
  intros Hne Hend Ha.
  unfold OsPath.join; simpl.
  f_equal.
  unfold OsPath.join_step.
  rewrite Ha, Hend, endswith_sep_app_sep, eqb_app_sep_empty.
  replace (String.eqb data_folder EmptyString) with false
    by (symmetry; apply String.eqb_neq; exact Hne).
  simpl.
  apply string_app_assoc.
Qed.

(** X14. A final separator on the data folder does not matter: for a
    non-empty folder name that does not end with "/", [get_train_files]
    and [get_valid_files] return the same result, files or
    [FileNotFoundError], for the folder and for the folder followed by
    "/". *)
Theorem get_files_trailing_separator (fs : FileSystem) (data_folder : string) :
  data_folder <> EmptyString ->
  OsPath.endswith_sep data_folder = false ->
  get_train_files fs (data_folder ++ "/") = get_train_files fs data_folder
  /\ get_valid_files fs (data_folder ++ "/") = get_valid_files fs data_folder.
Proof.
  intros Hne Hend.
  unfold get_train_files, get_valid_files.
  change "/"%string with (String OsPath.sep EmptyString).
  rewrite !(join_trailing_sep data_folder "proteinnet" _ Hne Hend eq_refl).
  split; reflexivity.
Qed.

Lemma get_files_trailing_separator_witness :
  get_train_files fs_data "data/" = get_train_files fs_data "data"
  /\ get_valid_files fs_data "data/" = get_valid_files fs_data "data".
Proof.
  apply (get_files_trailing_separator fs_data "data").
  - discriminate.
  - reflexivity.
Defined.

(** ** Malformed model outputs *)

Lemma mapM_raise_only {A B : Type} (f : A -> result B) (e : exn) (l : list A) :
  (forall x e', f x = Raise e' -> e' = e) ->
  forall e', mapM f l = Raise e' -> e' = e.
Proof.
  intros Hf.
  induction l as [|a l IH]; simpl; intros e' H; [discriminate|].
  destruct (f a) as [b|e0] eqn:Hfa.
  - destruct (mapM f l) as [bs|e1]; [discriminate|].
    injection H as <-.
    apply IH; reflexivity.
  - injection H as <-.
    apply (Hf a), Hfa.
Qed.

Lemma mapM_raises {A B : Type} (f : A -> result B) (e : exn) (l : list A) (x : A) :
  (forall y e', f y = Raise e' -> e' = e) ->
  In x l -> f x = Raise e ->
  mapM f l = Raise e.
Proof.
  intros Hf Hin Hx.
  destruct (mapM f l) as [bs|e'] eqn:Hrun.
  - apply mapM_Ok_Forall2 in Hrun.
    exfalso.
    clear Hf.
    induction Hrun as [|a b l bs Hab _ IH]; [contradiction|].
    destruct Hin as [-> | Hin]; [congruence | exact (IH Hin)].
  - f_equal.
    apply (mapM_raise_only f e l Hf), Hrun.
Qed.

(** X15. The model output must have exactly one channel per pair: if any
    pair of [contact_prob] holds a number of values other than 1, the
    squeeze fails and [loss_function] raises instead of returning a loss. *)
Theorem loss_function_rejects_channels (xent : Q -> Q -> Q) (min_residue_distance : option Z)
    (inputs : Inputs) (outputs : Outputs) (b i j : nat) (channels : list Q) :
  at3 (contact_prob outputs) b i j = Some channels ->
  length channels <> 1%nat ->
  exists e : exn,
    loss_function xent (__init__ min_residue_distance) inputs outputs = Raise e.
Proof.
  intros Hat Hlen.
  exists InvalidArgumentError.
  unfold at3 in Hat.
  destruct (nth_error (contact_prob outputs) b) as [x|] eqn:Hx; [|discriminate].
  destruct (nth_error x i) as [row|] eqn:Hrow; [|discriminate].
  set (g := fun c : list Q => match c with
                              | [q] => Ok q
                              | _ => Raise InvalidArgumentError
                              end).
  assert (Hg : forall c e', g c = Raise e' -> e' = InvalidArgumentError).
  { intros [|q [|q' c]] e' H; simpl in H; try discriminate; congruence. }
  assert (Hchannels : g channels = Raise InvalidArgumentError).
  { destruct channels as [|q [|q' c]]; simpl in *; try reflexivity.
    contradiction Hlen; reflexivity. }
  pose proof (fun row => mapM_raise_only g InvalidArgumentError row Hg) as Hg2.
  pose proof (fun y => mapM_raise_only (mapM g) InvalidArgumentError y Hg2) as Hg3.
  assert (Hsqueeze : Tf.squeeze3 (contact_prob outputs) = Raise InvalidArgumentError).
  { unfold Tf.squeeze3.
    fold g.
    apply (mapM_raises _ _ _ x Hg3 (nth_error_In _ _ Hx)).
    apply (mapM_raises _ _ _ row Hg2 (nth_error_In _ _ Hrow)).
    apply (mapM_raises _ _ _ channels Hg (nth_error_In _ _ Hat) Hchannels). }
  unfold loss_function, loss_function_locals.
  cbn [__init__ _label_name _output_name].
  rewrite getitem_label_contact_map, getitem_output_contact_prob.
  cbn [bind].
  rewrite Hsqueeze.
  reflexivity.
Qed.

Lemma loss_function_rejects_channels_witness :
  exists e : exn,
    loss_function xent_sq (__init__ None) batch4 outputs4_two_channels = Raise e.
Proof.
  apply (loss_function_rejects_channels xent_sq None batch4 outputs4_two_channels
           0%nat 0%nat 0%nat [0; 1]).
  - reflexivity.
  - simpl; lia.
Defined.

(** * The default minimum residue distance *)

(** ** The ranking restricted to the unmasked pairs *)













(** ** [__init__] *)



